(** * Discovery of tests from fmf metadata (tmt/steps/discover/fmf.py)

    A shallow embedding of [DiscoverFmf.wake] and [DiscoverFmf.go] together
    with the string and path functions of the Python library they call,
    and the properties of the discovery step proved about them. *)

From Stdlib Require Import Ascii String.
From stdpp Require Import base option list gmap strings.

Local Open Scope string_scope.
Local Open Scope list_scope.

(** ** Python strings *)

Module Str.

Definition slash : ascii := "/"%char.
Definition newline : ascii := ascii_of_nat 10.
Definition nl : string := String newline EmptyString.

(** [sep in s] *)
Fixpoint has_char (c : ascii) (s : string) : bool :=
  match s with
  | EmptyString => false
  | String a r => bool_decide (a = c) || has_char c r
  end.

(** [s.lstrip(c)] for a one-character argument *)
Fixpoint lstrip (c : ascii) (s : string) : string :=
  match s with
  | EmptyString => EmptyString
  | String a r => if bool_decide (a = c) then lstrip c r else s
  end.

(** [s == c * len(s)] *)
Fixpoint all_char (c : ascii) (s : string) : bool :=
  match s with
  | EmptyString => true
  | String a r => bool_decide (a = c) && all_char c r
  end.

(** [s.rstrip(c)] for a one-character argument *)
Fixpoint rstrip (c : ascii) (s : string) : string :=
  match s with
  | EmptyString => EmptyString
  | String a r => if all_char c s then EmptyString else String a (rstrip c r)
  end.

(** [s.strip(c)] *)
Definition strip (c : ascii) (s : string) : string := rstrip c (lstrip c s).

(** [s.split(c)]: the pieces between the occurrences of [c]; never empty. *)
Fixpoint split (c : ascii) (s : string) : list string :=
  match s with
  | EmptyString => [EmptyString]
  | String a r =>
      if bool_decide (a = c) then EmptyString :: split c r
      else match split c r with
           | [] => [String a EmptyString]
           | w :: ws => String a w :: ws
           end
  end.

(** [c.join(l)] *)
Fixpoint join (c : string) (l : list string) : string :=
  match l with
  | [] => EmptyString
  | [x] => x
  | x :: r => x +:+ c +:+ join c r
  end.

(** [s.startswith(p)] *)
Fixpoint startswith (p s : string) : bool :=
  match p, s with
  | EmptyString, _ => true
  | String a p', String b s' => bool_decide (a = b) && startswith p' s'
  | String _ _, EmptyString => false
  end.

(** [s.endswith(c)] for a one-character argument *)
Fixpoint endswith (c : ascii) (s : string) : bool :=
  match s with
  | EmptyString => false
  | String a EmptyString => bool_decide (a = c)
  | String _ r => endswith c r
  end.

(** [bool(s)] *)
Definition nonempty (s : string) : bool :=
  match s with EmptyString => false | String _ _ => true end.

End Str.

(** ** posixpath *)

Module PosixPath.
Import Str.

(** [p[:p.rfind('/') + 1]] *)
Fixpoint head_to_last_sep (p : string) : string :=
  match p with
  | EmptyString => EmptyString
  | String a r => if has_char slash p then String a (head_to_last_sep r)
                  else EmptyString
  end.

(** [os.path.dirname]
<<
    i = p.rfind(sep) + 1
    head = p[:i]
    if head and head != sep*len(head):
        head = head.rstrip(sep)
    return head
>> *)
Definition dirname (p : string) : string :=
  let head := head_to_last_sep p in
  if nonempty head && negb (all_char slash head) then rstrip slash head
  else head.

(** [os.path.isabs] *)
Definition isabs (p : string) : bool := startswith "/" p.

(** [os.path.join(a, b)] with one further component
<<
    path = a
    if b.startswith(sep):              path = b
    elif not path or path.endswith(sep): path += b
    else:                              path += sep + b
>> *)
Definition join (a b : string) : string :=
  if startswith "/" b then b
  else if negb (nonempty a) || endswith slash a then a +:+ b
  else a +:+ "/" +:+ b.

(** [os.path.join(x, *xs)] *)
Definition join_all (x : string) (xs : list string) : string :=
  foldl join x xs.

(** The loop of [normpath] over the components. *)
Fixpoint norm_comps (initial_slashes : nat) (new_comps : list string)
    (comps : list string) : list string :=
  match comps with
  | [] => new_comps
  | comp :: rest =>
      if bool_decide (comp = "") || bool_decide (comp = ".") then
        norm_comps initial_slashes new_comps rest
      else if negb (bool_decide (comp = ".."))
              || (bool_decide (initial_slashes = 0%nat)
                  && bool_decide (new_comps = []))
              || match last new_comps with
                 | Some l => bool_decide (l = "..")
                 | None => false
                 end
      then norm_comps initial_slashes (new_comps ++ [comp]) rest
      else match new_comps with
           | [] => norm_comps initial_slashes new_comps rest
           | _ => norm_comps initial_slashes (removelast new_comps) rest
           end
  end.

(** [os.path.normpath] *)
Definition normpath (path : string) : string :=
  if negb (nonempty path) then "." else
  let initial_slashes :=
    if startswith "/" path then
      if startswith "//" path && negb (startswith "///" path) then 2%nat
      else 1%nat
    else 0%nat in
  let comps := norm_comps initial_slashes [] (split slash path) in
  let path' := Str.join "/" comps in
  let path' := match initial_slashes with
               | 0%nat => path'
               | 1%nat => "/" +:+ path'
               | _ => "//" +:+ path'
               end in
  if nonempty path' then path' else ".".

(** [os.path.abspath], the working directory given *)
Definition abspath (cwd path : string) : string :=
  normpath (if isabs path then path else join cwd path).

(** The length of [os.path.commonprefix([l1, l2])] on two lists: the
    library compares [min] and [max] of the two component by component,
    which is the longest common prefix of the two. *)
Fixpoint commonprefix (l1 l2 : list string) : list string :=
  match l1, l2 with
  | a :: r1, b :: r2 =>
      if bool_decide (a = b) then a :: commonprefix r1 r2 else []
  | _, _ => []
  end.

(** [os.path.relpath(path, start)]; [None] is the [ValueError] raised for
    an empty [path]. *)
Definition relpath (cwd path start : string) : option string :=
  if negb (nonempty path) then None else
  let start_list := filter (λ x, nonempty x = true) (split slash (abspath cwd start)) in
  let path_list := filter (λ x, nonempty x = true) (split slash (abspath cwd path)) in
  let i := length (commonprefix start_list path_list) in
  let rel_list := (replicate (length start_list - i) ".." ++ drop i path_list)%list in
  match rel_list with
  | [] => Some "."
  | x :: xs => Some (join_all x xs)
  end.

End PosixPath.

(** ** re.escape *)

Module Re.

(** The characters of [re._special_chars_map] (Python 3.7 and later):
    [()[]{}?*+-|^$\.&~# \t\n\r\v\f], by code point. *)
Definition special_codes : list nat :=
  [40; 41; 91; 93; 123; 125; 63; 42; 43; 45; 124; 94; 36; 92; 46; 38; 126;
   35; 32; 9; 10; 13; 11; 12]%nat.

Definition special (c : ascii) : bool :=
  existsb (Nat.eqb (nat_of_ascii c)) special_codes.

Definition backslash : ascii := ascii_of_nat 92.

(** [re.escape]: every special character gets a backslash in front. *)
Fixpoint escape (s : string) : string :=
  match s with
  | EmptyString => EmptyString
  | String c r =>
      if special c then String backslash (String c (escape r))
      else String c (escape r)
  end.


End Re.

(** ** The modified set (fmf.py, lines 198-200)
<<
    modified = set(f"^/{re.escape(name)}$"
                   for name in map(os.path.dirname, output.split('\n'))
                   if name)
>> *)

Definition pattern_of (name : string) : string :=
  "^/" +:+ Re.escape name +:+ "$".

Definition modified_dirs (output : string) : list string :=
  filter (λ name, Str.nonempty name = true)
         (map PosixPath.dirname (Str.split Str.newline output)).

Definition modified (output : string) : gset string :=
  list_to_set (map pattern_of (modified_dirs output)).

(** ** Python values held by the plugin's data *)

#[local] Set Warnings "-register-all".

Inductive value :=
| VNone
| VBool (b : bool)
| VStr (s : string)
| VList (l : list value)
| VTuple (l : list value).

(** [bool(v)] *)
Definition truthy (v : value) : bool :=
  match v with
  | VNone => false
  | VBool b => b
  | VStr s => Str.nonempty s
  | VList l | VTuple l => match l with [] => false | _ => true end
  end.

(** [isinstance(v, list)] *)
Definition is_list (v : value) : bool :=
  match v with VList _ => true | _ => false end.

(** A list or a tuple. *)
Definition is_sequence (v : value) : bool :=
  match v with VList _ | VTuple _ => true | _ => false end.

Definition of_option (o : option string) : value :=
  match o with Some s => VStr s | None => VNone end.

Definition of_names (l : list string) : value := VTuple (VStr <$> l).

(** ** Command line options (fmf.py, lines 56-84)

    The values click hands over for the options declared in [options]: a
    string or [None] for an option with a [metavar], a tuple for the two
    declared with [multiple=True], a boolean for the flag. [o_dry] is the
    [--dry] option of the enclosing command. *)

Record cmdline := {
  o_url : option string;
  o_ref : option string;
  o_reference_url : option string;
  o_reference_ref : option string;
  o_only_modified : bool;
  o_path : option string;
  o_test : list string;
  o_filter : list string;
  o_dry : bool;
}.

(** Modelled from the spec: [Common.opt] is not under src/; it returns the
    value given on the command line for [option], [None] for an option that
    is not there. *)
Definition opt (c : cmdline) (option : string) : value :=
  if decide (option = "url") then of_option (o_url c)
  else if decide (option = "ref") then of_option (o_ref c)
  else if decide (option = "reference_url") then of_option (o_reference_url c)
  else if decide (option = "reference_ref") then of_option (o_reference_ref c)
  else if decide (option = "only_modified") then VBool (o_only_modified c)
  else if decide (option = "path") then of_option (o_path c)
  else if decide (option = "test") then of_names (o_test c)
  else if decide (option = "filter") then of_names (o_filter c)
  else if decide (option = "dry") then VBool (o_dry c)
  else VNone.

(** ** DiscoverFmf.default and Plugin.get *)

(** [DiscoverFmf.default] (lines 86-94). [self.get('url')] finds no default
    for [url], so it is the data's value or [None]. *)
Definition default (data : gmap string value) (option : string)
    (dflt : value) : value :=
  if bool_decide (option = "ref")
     && truthy (match data !! "url" with Some url => url | None => VNone end)
  then VStr "master"
  else if bool_decide (option = "reference_ref") then VStr "master"
  else dflt.

(** Modelled from the spec: [Plugin.get] is not under src/; the plugin's
    data first, then the plugin's defaults. *)
Definition get (data : gmap string value) (option : string)
    (dflt : value) : value :=
  match data !! option with
  | Some v => v
  | None => default data option dflt
  end.

(** ** DiscoverFmf.wake (lines 100-119) *)

(** [if old in data: data[new] = data.pop(old)] *)
Definition rename_key (old new : string) (data : gmap string value)
    : gmap string value :=
  match data !! old with
  | Some v => <[new := v]> (delete old data)
  | None => data
  end.

(** [if key in data and not isinstance(data[key], list): data[key] = [data[key]]] *)
Definition listify (data : gmap string value) (key : string)
    : gmap string value :=
  match data !! key with
  | Some v => if is_list v then data else <[key := VList [v]]> data
  | None => data
  end.

(** [value = self.opt(option); if value: data[option] = value] *)
Definition override (c : cmdline) (data : gmap string value)
    (option : string) : gmap string value :=
  let value := opt c option in
  if truthy value then <[option := value]> data else data.

Definition wake (c : cmdline) (data : gmap string value)
    : gmap string value :=
  let data := rename_key "repository" "url" data in
  let data := rename_key "revision" "ref" data in
  let data := foldl listify data ["filter"; "test"] in
  foldl (override c) data
    ["url"; "ref"; "reference_url"; "reference_ref"; "path";
     "test"; "filter"; "only_modified"].

(** ** Tests, exceptions, events *)

(** The attributes of a [tmt.Test] that discovery reads or writes. *)
Record Test := {
  name : string;
  path : string;
  require : list string;
  recommend : list string;
}.

Definition set_path (t : Test) (p : string) : Test :=
  {| name := name t; path := p; require := require t;
     recommend := recommend t |}.

Definition set_requires (t : Test) (rq rc : list string) : Test :=
  {| name := name t; path := path t; require := rq; recommend := rc |}.

(** A command given to [self.run]: an argument vector ([shell=False]) or a
    line for the shell. *)
Inductive command :=
| Argv (args : list string)
| Shell (line : string).

Inductive exn :=
| DiscoverError (msg : string)      (* tmt.utils.DiscoverError *)
| RunError (msg : string)           (* tmt.utils.RunError *)
| AttributeError
| TypeError
| ValueError
| OtherError (what : string).       (* any other exception of a collaborator *)

(** What the run does to the outside, in the order it does it. *)
Inductive event :=
| EvRun (cmd : command) (cwd : option string)     (* a command executed *)
| EvCopyTree (src dst : string)                   (* shutil.copytree *)
| EvTree (tree_path : string) (filters names : value)  (* tmt.Tree(...).tests(...) *)
| EvSetPath (test : string) (new_path : string)   (* test.path = ... *)
| EvDependencies (test : string) (rq rc : list string). (* tmt.beakerlib.dependencies *)

(** ** The collaborators

    [W] is the state of the outside world (file system, repositories). *)

Record externals (W : Type) := {
  (** [os.getcwd()] *)
  getcwd : W → string;
  (** [os.path.isdir] *)
  isdir : W → string → bool;
  (** a command executed in a directory: its standard output, or the
      exception raised ([RunError] for a command that fails) *)
  exec : W → command → option string → W * (exn + string);
  (** [shutil.copytree(src, dst, symlinks=True)] *)
  copytree : W → string → string → W * (exn + unit);
  (** the tests of the metadata tree at a path, in the tree's order, or the
      exception [tmt.Tree] raises *)
  tree_nodes : W → string → exn + list Test;
  (** a test's name matches a name pattern *)
  name_matches : value → Test → bool;
  (** a test satisfies a filter expression *)
  filter_matches : value → Test → bool;
  (** [tmt.beakerlib.dependencies(require, recommend, parent=self)], its
      third result dropped *)
  dependencies : W → list string → list string
                 → W * (exn + (list string * list string));
}.

Arguments getcwd {W}. Arguments isdir {W}. Arguments exec {W}.
Arguments copytree {W}. Arguments tree_nodes {W}.
Arguments name_matches {W}. Arguments filter_matches {W}.
Arguments dependencies {W}.

(** The elements of a sequence given as [names] or [filters]; anything else
    counts as none given. *)
Definition items (v : value) : list value :=
  match v with VList l | VTuple l => l | _ => [] end.

(** Modelled from the spec: [tmt.Tree.tests] is not under src/. A test is
    included if (no names were given, or it matches at least one name
    pattern) and (no filters were given, or it matches every filter
    expression); the order is the tree's. *)
Definition select {W} (X : externals W) (filters names : value)
    (nodes : list Test) : list Test :=
  filter (λ t,
            (match items names with
             | [] => true
             | ns => existsb (λ n, name_matches X n t) ns
             end
             && forallb (λ f, filter_matches X f t) (items filters)) = true)
         nodes.

(** ** The plugin and the state of a run *)

Record plugin := {
  (** [self.workdir] *)
  workdir : string;
  (** [self.step.plan.run.tree.root] *)
  tree_root : string;
  (** the command line *)
  options : cmdline;
  (** the output [self.run] hands back for a command that dry mode skips *)
  skipped_output : option string;
}.

Record state (W : Type) := {
  world : W;
  (** [self.data] *)
  data : gmap string value;
  (** [self._tests] *)
  self_tests : list Test;
  trace : list event;
}.

Arguments world {W}. Arguments data {W}. Arguments self_tests {W}.
Arguments trace {W}.

(** ** States a step leaves *)

(** The state after a call of a collaborator. *)
Definition after {W} (s : state W) (w : W) (ev : event) : state W :=
  {| world := w; data := data s; self_tests := self_tests s;
     trace := trace s ++ [ev] |}.

Definition with_tests {W} (s : state W) (ts : list Test) : state W :=
  {| world := world s; data := data s; self_tests := ts; trace := trace s |}.

Definition with_data {W} (s : state W) (d : gmap string value) : state W :=
  {| world := world s; data := d; self_tests := self_tests s; trace := trace s |}.

(** The state after [names.extend]: the list under ['test'], when there is
    one, is the list of names itself. *)
Definition extended {W} (s : state W) (names : value) : state W :=
  match data s !! "test" with
  | Some _ => with_data s (<["test" := names]> (data s))
  | None => s
  end.

(** ** A state and exception monad *)

Definition M (W A : Type) : Type := state W → state W * (exn + A).

Definition ret {W A} (a : A) : M W A := λ s, (s, inr a).

Definition raise {W A} (e : exn) : M W A := λ s, (s, inl e).

Definition bind {W A B} (m : M W A) (k : A → M W B) : M W B :=
  λ s, match m s with
       | (s', inr a) => k a s'
       | (s', inl e) => (s', inl e)
       end.

(** [try: m  except tmt.utils.RunError: handler] *)
Definition except_RunError {W A} (m handler : M W A) : M W A :=
  λ s, match m s with
       | (s', inl (RunError _)) => handler s'
       | r => r
       end.

Notation "'do' x ← m ; k" := (bind m (λ x, k))
  (at level 10, x name, m at level 100, k at level 200,
   format "'[v' 'do'  x  ←  m ; '/' k ']'").
Notation "'do' ' pat ← m ; k" := (bind m (λ x, match x with pat => k end))
  (at level 10, pat pattern, m at level 100, k at level 200,
   format "'[v' 'do'  ' pat  ←  m ; '/' k ']'").

Definition log {W} (e : event) : M W unit :=
  λ s, ({| world := world s; data := data s; self_tests := self_tests s;
           trace := trace s ++ [e] |}, inr tt).

Definition set_world {W} (w : W) : M W unit :=
  λ s, ({| world := w; data := data s; self_tests := self_tests s;
           trace := trace s |}, inr tt).

Definition set_data {W} (d : gmap string value) : M W unit :=
  λ s, ({| world := world s; data := d; self_tests := self_tests s;
           trace := trace s |}, inr tt).

Definition set_tests {W} (ts : list Test) : M W unit :=
  λ s, ({| world := world s; data := data s; self_tests := ts;
           trace := trace s |}, inr tt).

Definition lift {W A} (r : exn + A) : M W A :=
  match r with inl e => raise e | inr a => ret a end.

(** A call of a collaborator that may change the world. *)
Definition call {W A} (ev : event) (f : W → W * (exn + A)) : M W A :=
  λ s, let '(w, r) := f (world s) in
       ({| world := w; data := data s; self_tests := self_tests s;
           trace := trace s ++ [ev] |}, r).

(** A value used where the library wants a string. *)
Definition as_str {W} (v : value) : M W string :=
  match v with VStr s => ret s | _ => raise TypeError end.

(** ** The commands of the run (lines 144, 189, 191, 195-196) *)

Definition rev_parse : command := Shell "git rev-parse --show-toplevel".

Definition remote_add (url : string) : command :=
  Argv ["git"; "remote"; "add"; "reference"; url].

Definition fetch_remote : command := Argv ["git"; "fetch"; "reference"].

Definition git_log (reference_ref : string) : command :=
  Argv ["git"; "log"; "--format="; "--stat"; "--name-only";
        reference_ref +:+ "..HEAD"].

(** ** DiscoverFmf.go (lines 121-219)

    The calls of [self.info] and [self.debug] only write to the log and are
    left out, as is the [go] of the base class. *)

Section Discover.
Context {W : Type} (X : externals W) (p : plugin).

(** [self.opt('dry')] *)
Definition dry : bool := truthy (opt (options p) "dry").

(** [self.get(option, dflt)] *)
Definition self_get (option : string) (dflt : value) : M W value :=
  λ s, (s, inr (get (data s) option dflt)).

(** Modelled from the spec: [Common.run] is not under src/. It executes
    the command in [cwd] and returns its output, raising [RunError] when
    the command fails; in dry mode the command is skipped, unless the
    call says [dry=True]. *)
Definition run (cmd : command) (cwd : option string) (force : bool)
    : M W (option string) :=
  if dry && negb force then ret (skipped_output p)
  else do out ← call (EvRun cmd cwd) (λ w, exec X w cmd cwd); ret (Some out).

(** [os.path.isdir(path)] *)
Definition is_dir (path : string) : M W bool :=
  λ s, (s, inr (isdir X (world s) path)).

(** [os.path.relpath(path, start)] *)
Definition rel_path (path start : string) : M W string :=
  λ s, (s, match PosixPath.relpath (getcwd X (world s)) path start with
           | Some r => inr r
           | None => inl ValueError
           end).

(** [testdir = os.path.join(self.workdir, 'tests')] *)
Definition testdir : string := PosixPath.join (workdir p) "tests".

Definition not_a_directory (path : string) : exn :=
  DiscoverError ("Provided path '" +:+ path +:+ "' is not a directory.").

Definition tree_not_found (path : string) : exn :=
  DiscoverError ("Metadata tree path '" +:+ path +:+ "' not found.").

(** Line 140: [fmf_root = path or self.step.plan.run.tree.root] *)
Definition fmf_root_of (path : value) : value :=
  if truthy path then path else VStr (tree_root p).

(** Lines 136-154: no [url], copy the repository of the metadata root.
    Returns the new [path]. *)
Definition copy_local (path : value) : M W value :=
  do _ ← (if truthy path then
     do ps ← as_str path;
     do d ← is_dir ps;
     if d then ret tt else raise (not_a_directory ps)
   else ret tt);
  do fmf_root ← as_str (fmf_root_of path);
  do git_root ← except_RunError
    (do output ← run rev_parse (Some fmf_root) true;
     match output with
     | Some o => ret (Str.strip Str.newline o)
     | None => raise AttributeError
     end)
    (ret fmf_root);
  do rel ← rel_path fmf_root git_root;
  do _ ← (if dry then ret tt
          else call (EvCopyTree git_root testdir)
                    (λ w, copytree X w git_root testdir));
  ret (VStr rel).

(** Lines 126-154: clone the repository at [url], or copy the local one.
    Returns the variable [path]. *)
Definition fetch_source : M W value :=
  do url ← self_get "url" VNone;
  do path ← self_get "path" VNone;
  if truthy url then
    do u ← as_str url;
    do _ ← run (Argv ["git"; "clone"; u; testdir]) None false;
    ret path
  else copy_local path.

(** Lines 156-161 *)
Definition checkout : M W unit :=
  do ref ← self_get "ref" VNone;
  if truthy ref then
    do r ← as_str ref;
    do _ ← run (Argv ["git"; "checkout"; "-f"; r]) (Some testdir) false;
    ret tt
  else ret tt.

(** Lines 163-170: [None] and ['.'] become the empty path; [lstrip] is
    then called on the path, which a value that is no string does not
    have. *)
Definition adjust_path (path : value) : M W string :=
  match path with
  | VNone => ret ""
  | VStr s => if bool_decide (s = ".") then ret "" else ret s
  | _ => raise AttributeError
  end.

(** Lines 169-174. Returns [(tree_path, prefix_path)]. *)
Definition locate (path : string) : M W (string * string) :=
  let tree_path := PosixPath.join testdir (Str.lstrip Str.slash path) in
  do d ← is_dir tree_path;
  if negb d && negb dry then raise (tree_not_found path)
  else ret (tree_path, PosixPath.join "/tests" (Str.lstrip Str.slash path)).

(** Lines 125-174: the source is in place. Returns
    [(path, tree_path, prefix_path)]. *)
Definition acquire : M W (string * string * string) :=
  do path ← fetch_source;
  do _ ← checkout;
  do path ← adjust_path path;
  do '(tree_path, prefix_path) ← locate path;
  ret (path, tree_path, prefix_path).

(** Lines 177-179: the loop over [filters] wants something to iterate. *)
Definition show_filters (filters : value) : M W unit :=
  match filters with
  | VNone | VBool _ => raise TypeError
  | _ => ret tt
  end.

(** Lines 186-191 *)
Definition fetch_reference (ref_url : value) : M W unit :=
  if truthy ref_url then
    do u ← as_str ref_url;
    do _ ← run (remote_add u) (Some testdir) false;
    do _ ← run fetch_remote (Some testdir) false;
    ret tt
  else ret tt.

(** The text of a value in an f-string; that of a sequence is not
    modelled. *)
Definition format (v : value) : M W string :=
  match v with
  | VStr s => ret s
  | VNone => ret "None"
  | VBool true => ret "True"
  | VBool false => ret "False"
  | _ => raise (OtherError "text of a sequence")
  end.

(** [names.extend(more)]: only a list has [extend]; [names] is the very
    list held under ['test'] in the data when the key is there. *)
Definition extend (names : value) (more : list string) : M W value :=
  match names with
  | VList l =>
      let names' := VList (l ++ (VStr <$> more)) in
      λ s, (extended s names', inr names')
  | _ => raise AttributeError
  end.

(** Lines 192-202. Returns [names]. The order in which a Python set is
    iterated is not specified; [elements] fixes one. *)
Definition limit_to_modified (only_modified names : value) : M W value :=
  if truthy only_modified then
    do reference_ref ← self_get "reference_ref" VNone;
    do rr ← format reference_ref;
    do output ← run (git_log rr) (Some testdir) false;
    match output with
    | Some out => extend names (elements (modified out))
    | None => raise AttributeError
    end
  else ret names.

(** Lines 209-210 *)
Definition tree_tests (tree_path : string) (filters names : value)
    : M W (list Test) :=
  call (EvTree tree_path filters names)
       (λ w, (w, match tree_nodes X w tree_path with
                 | inl e => inl e
                 | inr nodes => inr (select X filters names nodes)
                 end)).

(** Line 215 *)
Definition prefixed (prefix_path : string) (test_path : string) : string :=
  PosixPath.join prefix_path (Str.lstrip Str.slash test_path).

(** Lines 217-219 for one test, the tests before it in [self._tests]
    being [done] and those after it [rest]. *)
Definition handle_requires (done rest : list Test) (test : Test)
    : M W Test :=
  match require test, recommend test with
  | [], [] => ret test
  | _, _ =>
      do '(rq, rc) ← call (EvDependencies (name test) (require test)
                                       (recommend test))
                       (λ w, dependencies X w (require test) (recommend test));
      let test' := set_requires test rq rc in
      do _ ← set_tests (done ++ test' :: rest);
      ret test'
  end.

(** Lines 213-219: the loop over [self._tests], which changes each test
    in place. *)
Fixpoint prefix_tests (prefix_path : string) (done todo : list Test)
    : M W unit :=
  match todo with
  | [] => ret tt
  | test :: rest =>
      let test1 := set_path test (prefixed prefix_path (path test)) in
      do _ ← set_tests (done ++ test1 :: rest);
      do _ ← log (EvSetPath (name test) (path test1));
      do test2 ← handle_requires done rest test1;
      prefix_tests prefix_path (done ++ [test2]) rest
  end.

(** Lines 204-219: in dry mode [self._tests = []] and [return]. *)
Definition search (tree_path prefix_path : string) (filters names : value)
    : M W unit :=
  if dry then set_tests []
  else
    do tests ← tree_tests tree_path filters names;
    do _ ← set_tests tests;
    prefix_tests prefix_path [] tests.

(** Lines 176-219 *)
Definition discover (tree_path prefix_path : string) : M W unit :=
  do filters ← self_get "filter" (VList []);
  do _ ← show_filters filters;
  do names ← self_get "test" (VList []);
  do only_modified ← self_get "only_modified" VNone;
  do ref_url ← self_get "reference_url" VNone;
  do _ ← fetch_reference ref_url;
  do names ← limit_to_modified only_modified names;
  search tree_path prefix_path filters names.

Definition go : M W unit :=
  do '(_, tree_path, prefix_path) ← acquire;
  discover tree_path prefix_path.

End Discover.

(** [DiscoverFmf.tests] *)
Definition tests {W} (s : state W) : list Test := self_tests s.

(** ** A small world to run the step in

    One fixed world: the directories that exist are listed, every command
    is answered by a table, copying succeeds, the metadata tree holds the
    given tests, a name pattern matches a test when it is the test's name
    or the name between [^] and [$], every filter matches and the library
    hook returns what it was given. *)

Module Fixture.

Definition command_line (dry : bool) : cmdline :=
  {| o_url := None; o_ref := None; o_reference_url := None;
     o_reference_ref := None; o_only_modified := false; o_path := None;
     o_test := []; o_filter := []; o_dry := dry |}.

Definition the_plugin (dry : bool) : plugin :=
  {| workdir := "/var/tmp/tmt/run-001/plan/discover/default";
     tree_root := "/home/user/repo";
     options := command_line dry;
     skipped_output := None |}.

Definition collaborators (dirs : list string) (git : command → exn + string)
    (nodes : list Test) : externals unit :=
  {| getcwd _ := "/home/user/repo";
     isdir _ path := bool_decide (path ∈ dirs);
     exec w cmd _ := (w, git cmd);
     copytree w _ _ := (w, inr tt);
     tree_nodes _ _ := inr nodes;
     name_matches n t :=
       match n with
       | VStr pat => bool_decide (pat = name t)
                     || bool_decide (pat = "^" +:+ name t +:+ "$")
       | _ => false
       end;
     filter_matches _ _ := true;
     dependencies w rq rc := (w, inr (rq, rc)) |}.

Definition start (d : gmap string value) : state unit :=
  {| world := tt; data := d; self_tests := []; trace := [] |}.

(** Every command succeeds and prints nothing. *)
Definition git_ok (cmd : command) : exn + string := inr "".

(** The directory is not in a repository; everything else succeeds. *)
Definition git_no_repository (cmd : command) : exn + string :=
  match cmd with
  | Shell _ => inl (RunError "fatal: not a git repository")
  | Argv _ => inr ""
  end.

(** The repository's root is the given directory; [git log] lists the
    given files. *)
Definition git_repository (root : string) (files : list string)
    (cmd : command) : exn + string :=
  match cmd with
  | Shell _ => inr (root +:+ Str.nl)
  | Argv ("git" :: "log" :: _) => inr (Str.join Str.nl files +:+ Str.nl)
  | Argv _ => inr ""
  end.

Definition testdir : string :=
  "/var/tmp/tmt/run-001/plan/discover/default/tests".

End Fixture.

(** ** Statements of the specification, to compare the code with *)

(** The rewrite of a test's path as the specification words it:
    [normalize(pathPrefix + "/" + stripLeadingSlash(path))]. *)
Definition spec_rewrite (path_prefix path : string) : string :=
  PosixPath.normpath (path_prefix +:+ "/" +:+ Str.lstrip Str.slash path).

(** What one turn of the loop of lines 213-219 does to the outside, for a
    test as the metadata tree gave it. *)
Definition loop_events (prefix_path : string) (t : Test) : list event :=
  EvSetPath (name t) (prefixed prefix_path (path t))
  :: match require t, recommend t with
     | [], [] => []
     | _, _ => [EvDependencies (name t) (require t) (recommend t)]
     end.

Definition is_set_path (e : event) : bool :=
  match e with EvSetPath _ _ => true | _ => false end.

(** Neither the copy of the source tree nor the query of the metadata
    tree. *)
Definition quiet (e : event) : Prop :=
  match e with
  | EvCopyTree _ _ | EvTree _ _ _ => False
  | _ => True
  end.

(** The root the [try] block of lines 142-148 ends with, from what the
    lookup gave. *)
Definition git_root_of (fmf_root : string) (r : exn + string) : option string :=
  match r with
  | inr out => Some (Str.strip Str.newline out)
  | inl (RunError _) => Some fmf_root
  | inl _ => None
  end.

(** The output of [git log --name-only] that lists the given files. *)
Definition listing (files : list string) : string := Str.join Str.nl files.

(** What [wake] leaves under ['test'] and ['filter']. *)
Definition as_list (v : value) : value := if is_list v then v else VList [v].

(** A step keeps a property of the state. *)
Definition keeps {W A} (P : state W → Prop) (m : M W A) : Prop :=
  ∀ s, P s → P (fst (m s)).

(** ** Names for the parts of [wake] *)

(** The options [wake] takes from the command line (lines 115-116). *)
Definition option_names : list string :=
  ["url"; "ref"; "reference_url"; "reference_ref"; "path";
   "test"; "filter"; "only_modified"].

(** The data after the backward-compatible keys are renamed (lines
    104-107). *)
Definition renamed (data : gmap string value) : gmap string value :=
  rename_key "revision" "ref" (rename_key "repository" "url" data).

(** ** More names for commands and events (lines 134, 161) *)

Definition git_clone (url testdir : string) : command :=
  Argv ["git"; "clone"; url; testdir].

Definition git_checkout (ref : string) : command :=
  Argv ["git"; "checkout"; "-f"; ref].

(** The copy of a source tree. *)
Definition is_copy (e : event) : Prop :=
  match e with EvCopyTree _ _ => True | _ => False end.

(** What the loop of lines 213-219 makes of a test [t]: the same name, the
    prefixed path, and the requires the library hook gave for those of [t]
    in some world, or none when [t] had none. *)
Definition handled {W} (X : externals W) (prefix_path : string)
    (t t' : Test) : Prop :=
  name t' = name t
  ∧ path t' = prefixed prefix_path (path t)
  ∧ match require t, recommend t with
    | [], [] => require t' = [] ∧ recommend t' = []
    | _, _ => ∃ w w', dependencies X w (require t) (recommend t)
                      = (w', inr (require t', recommend t'))
    end.

(** A string with no character [re.escape] puts a backslash before. *)
Fixpoint plain (s : string) : bool :=
  match s with
  | EmptyString => true
  | String c r => negb (Re.special c) && plain r
  end.

(** [[x for x in p.split(sep) if x]], as [relpath] takes the components of
    a path. *)
Definition components (p : string) : list string :=
  filter (λ x, Str.nonempty x = true) (Str.split Str.slash p).

(* ================================================================= *)
(** * Properties *)

#[local] Set Warnings "-clear-no-such-hyp".

(** ** The path functions on examples *)

Example dirname_ex1 : PosixPath.dirname "a/b/x" = "a/b". Proof. reflexivity. Qed.
Example dirname_ex2 : PosixPath.dirname "x" = "". Proof. reflexivity. Qed.
Example dirname_ex3 : PosixPath.dirname "/x" = "/". Proof. reflexivity. Qed.
Example dirname_ex4 : PosixPath.dirname "a//x" = "a". Proof. reflexivity. Qed.
Example join_ex1 : PosixPath.join "/tests" "" = "/tests/". Proof. reflexivity. Qed.
Example join_ex2 : PosixPath.join "/tests" "a/b" = "/tests/a/b". Proof. reflexivity. Qed.
Example normpath_ex1 : PosixPath.normpath "/tests//a/../b/" = "/tests/b". Proof. reflexivity. Qed.
Example relpath_ex1 : PosixPath.relpath "/cwd" "/r/a/b" "/r" = Some "a/b". Proof. vm_compute. reflexivity. Qed.
Example relpath_ex2 : PosixPath.relpath "/cwd" "x/y" "x/z/w" = Some "../../y". Proof. vm_compute. reflexivity. Qed.

(** ** The modified set *)


Lemma nonempty_true s : Str.nonempty s = true ↔ s ≠ "".
Proof. by destruct s. Qed.

Lemma elem_of_modified_dirs output d :
  d ∈ modified_dirs output ↔
  d ≠ "" ∧ ∃ line, line ∈ Str.split Str.newline output ∧ d = PosixPath.dirname line.
Proof.
  unfold modified_dirs. rewrite list_elem_of_filter, nonempty_true, list_elem_of_fmap.
  split; intros [Hne (line & H1 & H2)]; (split; [done|]); exists line; done.
Qed.

Lemma head_to_last_sep_no_sep p :
  Str.has_char Str.slash p = false → PosixPath.head_to_last_sep p = "".
Proof. destruct p; [done|]. simpl. intros Hp. by rewrite Hp. Qed.




Lemma elem_of_modified output p :
  p ∈ modified output ↔
  ∃ line, line ∈ Str.split Str.newline output
          ∧ PosixPath.dirname line ≠ "" ∧ p = pattern_of (PosixPath.dirname line).
Proof.
  unfold modified. rewrite elem_of_list_to_set, list_elem_of_fmap. split.
  - intros (d & -> & Hd). apply elem_of_modified_dirs in Hd as (Hne & line & Hl & ->).
    by exists line.
  - intros (line & Hl & Hne & ->). exists (PosixPath.dirname line). split; [done|].
    apply elem_of_modified_dirs. split; [done|]. by exists line.
Qed.

Lemma length_app (a t : string) :
  String.length (a +:+ t) = (String.length a + String.length t)%nat.
Proof. induction a as [|x a IH]; simpl; [done | by rewrite IH]. Qed.

Lemma append_inj_r (a b t : string) : a +:+ t = b +:+ t → a = b.
Proof.
  revert b. induction a as [|x a IH]; intros [|y b] H; try done.
  - apply (f_equal String.length) in H. rewrite !length_app in H. simpl in H. lia.
  - apply (f_equal String.length) in H. rewrite !length_app in H. simpl in H. lia.
  - simpl in H. injection H as -> H. f_equal. by apply IH.
Qed.


(** C1, as the code has it: for the changed files [a/b/x], [a/b/y] and
    [c/z] the modified set is exactly [{^/a/b$, ^/c$}]; in general it holds
    one anchored pattern for the whole directory ([os.path.dirname]) of each
    listed file that has one, whatever the depth of that directory. *)
Theorem C1_modified_whole_directories :
  modified (listing ["a/b/x"; "a/b/y"; "c/z"]) = {[ "^/a/b$"; "^/c$" ]}
  ∧ ∀ output p,
      p ∈ modified output ↔
      ∃ line, line ∈ Str.split Str.newline output
              ∧ PosixPath.dirname line ≠ ""
              ∧ p = pattern_of (PosixPath.dirname line).
Proof.
  split; [by vm_compute | apply elem_of_modified].
Qed.

(** C1 as stated fails: the set computed for [a/b/x], [a/b/y], [c/z] is not
    [{^/a$, ^/c$}]; the pattern of the top-level directory [a] is not in
    it. *)
Lemma C1_not_top_level :
  modified (listing ["a/b/x"; "a/b/y"; "c/z"]) ≠ {[ "^/a$"; "^/c$" ]}
  ∧ "^/a$" ∉ modified (listing ["a/b/x"; "a/b/y"; "c/z"]).
Proof.
  split; apply (bool_decide_unpack _); vm_compute; exact I.
Qed.


(** ** Waking up *)

Lemma rename_key_lookup old new data k :
  k ≠ old → k ≠ new → rename_key old new data !! k = data !! k.
Proof.
  intros Ho Hn. unfold rename_key. destruct (data !! old); [|done].
  by rewrite lookup_insert_ne, lookup_delete_ne.
Qed.

Lemma listify_lookup data key k :
  listify data key !! k =
  if decide (key = k) then
    (λ v, if is_list v then v else VList [v]) <$> data !! k
  else data !! k.
Proof.
  unfold listify. case_decide as Hk.
  - subst. destruct (data !! k) as [v|] eqn:Hv; [|by rewrite Hv].
    destruct (is_list v) eqn:Hl; simpl; [by rewrite Hl, Hv|].
    by rewrite Hl, lookup_insert_eq.
  - destruct (data !! key) as [v|]; [|done].
    destruct (is_list v); [done|]. by rewrite lookup_insert_ne.
Qed.

Lemma override_lookup c data option k :
  override c data option !! k =
  if decide (option = k) then
    if truthy (opt c option) then Some (opt c option) else data !! k
  else data !! k.
Proof.
  unfold override. case_decide as Hk.
  - subst. destruct (truthy (opt c k)); [by rewrite lookup_insert_eq | done].
  - destruct (truthy (opt c option)); [by rewrite lookup_insert_ne | done].
Qed.

Lemma wake_lookup_test c data :
  wake c data !! "test" =
  if truthy (of_names (o_test c)) then Some (of_names (o_test c))
  else as_list <$> data !! "test".
Proof.
  unfold wake. cbn [foldl]. rewrite !override_lookup, !listify_lookup.
  rewrite !rename_key_lookup by done. reflexivity.
Qed.

Lemma wake_lookup_filter c data :
  wake c data !! "filter" =
  if truthy (of_names (o_filter c)) then Some (of_names (o_filter c))
  else as_list <$> data !! "filter".
Proof.
  unfold wake. cbn [foldl]. rewrite !override_lookup, !listify_lookup.
  rewrite !rename_key_lookup by done. reflexivity.
Qed.

Lemma as_list_sequence v : is_sequence (as_list v) = true.
Proof. unfold as_list. by destruct v. Qed.

Lemma wake_sequence c data key v :
  key ∈ ["test"; "filter"] → wake c data !! key = Some v → is_sequence v = true.
Proof.
  intros Hk%elem_of_cons. destruct Hk as [->|Hk%list_elem_of_singleton].
  - rewrite wake_lookup_test. case_match.
    + by intros [= <-].
    + destruct (data !! "test"); intros [= <-]. apply as_list_sequence.
  - subst. rewrite wake_lookup_filter. case_match.
    + by intros [= <-].
    + destruct (data !! "filter"); intros [= <-]. apply as_list_sequence.
Qed.

(** C9: after [wake], what is under ['test'] and under ['filter'] is a
    sequence. A value given in the plugin's data is kept when it is a list
    and becomes the one-element list holding it otherwise; names or filters
    given on the command line replace it by their tuple. *)
Theorem C9_wake_sequences :
  ∀ c data,
    (∀ key v, key ∈ ["test"; "filter"] → wake c data !! key = Some v
              → is_sequence v = true)
    ∧ wake c data !! "test" =
        (if truthy (of_names (o_test c)) then Some (of_names (o_test c))
         else (λ v, if is_list v then v else VList [v]) <$> data !! "test")
    ∧ wake c data !! "filter" =
        (if truthy (of_names (o_filter c)) then Some (of_names (o_filter c))
         else (λ v, if is_list v then v else VList [v]) <$> data !! "filter").
Proof.
  intros c data. split_and!.
  - intros key v. apply wake_sequence.
  - apply wake_lookup_test.
  - apply wake_lookup_filter.
Qed.

Example wake_ex1 :
  wake {| o_url := None; o_ref := None; o_reference_url := None;
          o_reference_ref := None; o_only_modified := false; o_path := None;
          o_test := []; o_filter := []; o_dry := false |}
       (<["test" := VStr "/tests/basic"]> (<["filter" := VList [VStr "tier: 1"]]>
          (<["repository" := VStr "https://github.com/psss/tmt"]> ∅)))
  = <["test" := VList [VStr "/tests/basic"]]> (<["filter" := VList [VStr "tier: 1"]]>
          (<["url" := VStr "https://github.com/psss/tmt"]> ∅)).
Proof. by vm_compute. Qed.

(** ** The monad *)

Section MonadLemmas.
Context {W : Type}.

Lemma bind_ok {A B} (m : M W A) (k : A → M W B) s s1 a :
  m s = (s1, inr a) → bind m k s = k a s1.
Proof. unfold bind. by intros ->. Qed.

Lemma bind_raise {A B} (m : M W A) (k : A → M W B) s s1 e :
  m s = (s1, inl e) → bind m k s = (s1, inl e).
Proof. unfold bind. by intros ->. Qed.

Lemma bind_inv_ok {A B} (m : M W A) (k : A → M W B) s s' b :
  bind m k s = (s', inr b) →
  ∃ s1 a, m s = (s1, inr a) ∧ k a s1 = (s', inr b).
Proof.
  unfold bind. destruct (m s) as [s1 [e|a]]; [done|]. intros H. by exists s1, a.
Qed.

End MonadLemmas.

(** ** A path that is not a directory *)

(** C2, as the code has it: with no [url], a [path] that is set and is not
    a directory makes [go] raise the discovery error at once: the state,
    the world and the trace are those [go] started from. *)
Theorem C2_local_path_not_a_directory :
  ∀ {W} (X : externals W) (p : plugin) (s : state W) (path : string),
    truthy (get (data s) "url" VNone) = false →
    get (data s) "path" VNone = VStr path →
    path ≠ "" →
    isdir X (world s) path = false →
    go X p s = (s, inl (DiscoverError
                          ("Provided path '" +:+ path +:+ "' is not a directory."))).
Proof.
  intros W X p s path Hurl Hpath Hne Hdir.
  unfold go, acquire, fetch_source.
  rewrite (bind_raise _ _ s s (not_a_directory path)); [done|].
  rewrite (bind_raise _ _ s s (not_a_directory path)); [done|].
  rewrite (bind_ok _ _ s s (get (data s) "url" VNone)) by done.
  rewrite (bind_ok _ _ s s (VStr path)) by (unfold self_get; by rewrite Hpath).
  rewrite Hurl. unfold copy_local.
  apply bind_raise.
  assert (truthy (VStr path) = true) as -> by (by destruct path).
  rewrite (bind_ok _ _ s s path) by done.
  rewrite (bind_ok _ _ s s false) by (unfold is_dir; by rewrite Hdir).
  done.
Qed.

Lemma C2_local_path_not_a_directory_witness :
  go (Fixture.collaborators [] Fixture.git_ok []) (Fixture.the_plugin false)
     (Fixture.start {[ "path" := VStr "/nonexistent" ]})
  = (Fixture.start {[ "path" := VStr "/nonexistent" ]},
     inl (DiscoverError "Provided path '/nonexistent' is not a directory.")).
Proof.
  apply (C2_local_path_not_a_directory
           (Fixture.collaborators [] Fixture.git_ok []) (Fixture.the_plugin false)
           (Fixture.start {[ "path" := VStr "/nonexistent" ]}) "/nonexistent");
    [reflexivity | reflexivity | discriminate | reflexivity].
Defined.

(** C2 as stated fails when [url] is set: the [path] is then a path inside
    the clone and is not looked up on the local disk. Here [/nonexistent]
    is no local directory, yet the first thing [go] does is to clone; with
    the directory in the clone the run ends well, and without it the run
    fails after the clone, with the error of the missing metadata tree. *)
Lemma C2_url_set_no_path_check :
  let data : gmap string value :=
    {[ "url" := VStr "https://github.com/psss/tmt";
       "path" := VStr "/nonexistent" ]} in
  let X1 := Fixture.collaborators [(Fixture.testdir +:+ "/nonexistent")]
                                  Fixture.git_ok [] in
  let X2 := Fixture.collaborators [] Fixture.git_ok [] in
  let p := Fixture.the_plugin false in
  isdir X1 tt "/nonexistent" = false
  ∧ snd (go X1 p (Fixture.start data)) = inr tt
  ∧ trace (fst (go X1 p (Fixture.start data))) =
      [ EvRun (Argv ["git"; "clone"; "https://github.com/psss/tmt"; Fixture.testdir]) None;
        EvRun (Argv ["git"; "checkout"; "-f"; "master"]) (Some Fixture.testdir);
        EvTree (Fixture.testdir +:+ "/nonexistent") (VList []) (VList []) ]
  ∧ isdir X2 tt "/nonexistent" = false
  ∧ snd (go X2 p (Fixture.start data)) =
      inl (DiscoverError "Metadata tree path '/nonexistent' not found.")
  ∧ trace (fst (go X2 p (Fixture.start data))) =
      [ EvRun (Argv ["git"; "clone"; "https://github.com/psss/tmt"; Fixture.testdir]) None;
        EvRun (Argv ["git"; "checkout"; "-f"; "master"]) (Some Fixture.testdir) ].
Proof. vm_compute. done. Qed.

(** ** Acquiring the local source *)

Lemma commonprefix_same l : PosixPath.commonprefix l l = l.
Proof.
  induction l as [|a l IH]; [done|]. simpl.
  rewrite bool_decide_eq_true_2 by done. by rewrite IH.
Qed.

Lemma relpath_same cwd path start :
  path ≠ "" →
  PosixPath.abspath cwd start = PosixPath.abspath cwd path →
  PosixPath.relpath cwd path start = Some ".".
Proof.
  intros Hne Heq. unfold PosixPath.relpath.
  apply nonempty_true in Hne. rewrite Hne, Heq. cbn [negb].
  rewrite commonprefix_same, Nat.sub_diag, drop_all. done.
Qed.

Ltac mstep :=
  cbv beta iota zeta delta
    [bind ret raise lift self_get is_dir rel_path call as_str
     except_RunError log set_tests set_world set_data after];
  cbn [fst snd world data self_tests trace negb andb orb].

Section Acquire.
Context {W : Type} (X : externals W) (p : plugin).

Lemma run_forced cmd cwd s :
  run X p cmd cwd true s =
  let '(w, r) := exec X (world s) cmd cwd in
  (after s w (EvRun cmd cwd),
   match r with inl e => inl e | inr out => inr (Some out) end).
Proof.
  unfold run. rewrite andb_false_r. mstep.
  by destruct (exec X (world s) cmd cwd) as [w [e|out]].
Qed.

Lemma run_executed cmd cwd force s :
  dry p = false →
  run X p cmd cwd force s =
  let '(w, r) := exec X (world s) cmd cwd in
  (after s w (EvRun cmd cwd),
   match r with inl e => inl e | inr out => inr (Some out) end).
Proof.
  intros Hdry. unfold run. rewrite Hdry. mstep.
  by destruct (exec X (world s) cmd cwd) as [w [e|out]].
Qed.

Lemma run_skipped cmd cwd s :
  dry p = true → run X p cmd cwd false s = (s, inr (skipped_output p)).
Proof. intros Hdry. unfold run. by rewrite Hdry. Qed.

(** [copy_local] when the path, if any, is a directory and the lookup of
    the repository's root ends in a root [git_root]. *)
Lemma copy_local_eq path s fmf_root w1 r git_root rel :
  fmf_root_of p path = VStr fmf_root →
  (truthy path = true → isdir X (world s) fmf_root = true) →
  exec X (world s) rev_parse (Some fmf_root) = (w1, r) →
  git_root_of fmf_root r = Some git_root →
  PosixPath.relpath (getcwd X w1) fmf_root git_root = Some rel →
  copy_local X p path s =
  let s1 := after s w1 (EvRun rev_parse (Some fmf_root)) in
  if dry p then (s1, inr (VStr rel))
  else
    let '(w2, c) := copytree X w1 git_root (testdir p) in
    (after s1 w2 (EvCopyTree git_root (testdir p)),
     match c with inl e => inl e | inr _ => inr (VStr rel) end).
Proof.
  intros Hroot Hdir Hexec Hgit Hrel. unfold copy_local, fmf_root_of in *.
  destruct (truthy path) eqn:Hp.
  - subst path. mstep. rewrite Hdir by done.
    rewrite run_forced. fold rev_parse. rewrite Hexec.
    destruct r as [[]|out]; simplify_eq/=; mstep; rewrite Hrel;
      destruct (dry p); mstep; try done;
      destruct (copytree X w1 _ (testdir p)) as [w2 [e|[]]]; done.
  - simplify_eq. mstep.
    rewrite run_forced. fold rev_parse. rewrite Hexec.
    destruct r as [[]|out]; simplify_eq/=; mstep; rewrite Hrel;
      destruct (dry p); mstep; try done;
      destruct (copytree X w1 _ (testdir p)) as [w2 [e|[]]]; done.
Qed.

Lemma fetch_source_local s :
  truthy (get (data s) "url" VNone) = false →
  fetch_source X p s = copy_local X p (get (data s) "path" VNone) s.
Proof. intros Hurl. unfold fetch_source. mstep. by rewrite Hurl. Qed.

Lemma checkout_none s :
  truthy (get (data s) "ref" VNone) = false → checkout X p s = (s, inr tt).
Proof. intros Href. unfold checkout. mstep. by rewrite Href. Qed.

Lemma locate_eq path s :
  locate X p path s =
  if negb (isdir X (world s) (PosixPath.join (testdir p) (Str.lstrip Str.slash path)))
     && negb (dry p)
  then (s, inl (tree_not_found path))
  else (s, inr (PosixPath.join (testdir p) (Str.lstrip Str.slash path),
                PosixPath.join "/tests" (Str.lstrip Str.slash path))).
Proof. unfold locate. mstep. by case_match. Qed.

(** In dry mode the check of the metadata tree path never raises. *)
Lemma locate_dry path s :
  dry p = true →
  locate X p path s =
  (s, inr (PosixPath.join (testdir p) (Str.lstrip Str.slash path),
           PosixPath.join "/tests" (Str.lstrip Str.slash path))).
Proof. intros Hdry. rewrite locate_eq, Hdry. by rewrite andb_false_r. Qed.

(** [acquire] after a [fetch_source] that gave the path ['.']. *)
Lemma acquire_dot s :
  (∀ sa pa, fetch_source X p s = (sa, inr pa) → pa = VStr ".") →
  ∀ s' path tree_path prefix_path,
    acquire X p s = (s', inr (path, tree_path, prefix_path)) →
    path = "" ∧ tree_path = PosixPath.join (testdir p) "" ∧ prefix_path = "/tests/".
Proof.
  intros Hdot s' path tree_path prefix_path. unfold acquire.
  intros (sa & pa & Hf & H)%bind_inv_ok. apply Hdot in Hf as ->.
  apply bind_inv_ok in H as (sb & [] & _ & H).
  apply bind_inv_ok in H as (sc & path' & Ha & H).
  cbv in Ha. simplify_eq.
  apply bind_inv_ok in H as (sd & [tp pp] & Hl & H).
  rewrite locate_eq in Hl. cbv [ret] in H. case_match; simplify_eq. done.
Qed.

Lemma acquire_ok s sa :
  fetch_source X p s = (sa, inr (VStr ".")) →
  truthy (get (data sa) "ref" VNone) = false →
  isdir X (world sa) (PosixPath.join (testdir p) "") = true ∨ dry p = true →
  acquire X p s = (sa, inr ("", PosixPath.join (testdir p) "", "/tests/")).
Proof.
  intros Hf Href Hdir. unfold acquire.
  rewrite (bind_ok _ _ _ _ _ Hf), (bind_ok _ _ _ _ _ (checkout_none _ Href)).
  rewrite (bind_ok _ _ sa sa "") by done.
  rewrite (bind_ok _ _ sa sa (PosixPath.join (testdir p) "", "/tests/")); [done|].
  rewrite locate_eq. change (Str.lstrip Str.slash "") with "".
  destruct Hdir as [-> | ->]; [done | by rewrite andb_false_r].
Qed.

End Acquire.

(** C6: when the lookup of the repository's root raises [RunError], the
    error is caught: the next thing done is the copy of the metadata root
    itself into the test directory (nothing in dry mode), the path computed
    is ['.'], which the run takes as the empty path; and with the copy done,
    no [ref] to check out and the copied tree in place, the acquisition ends
    well with the empty path. *)
Theorem C6_fallback_to_metadata_root :
  ∀ {W} (X : externals W) (p : plugin) (s : state W) (fmf_root : string)
    (w1 : W) (msg : string),
    truthy (get (data s) "url" VNone) = false →
    fmf_root_of p (get (data s) "path" VNone) = VStr fmf_root →
    fmf_root ≠ "" →
    (truthy (get (data s) "path" VNone) = true
     → isdir X (world s) fmf_root = true) →
    exec X (world s) rev_parse (Some fmf_root) = (w1, inl (RunError msg)) →
    let s1 := after s w1 (EvRun rev_parse (Some fmf_root)) in
    fetch_source X p s =
      (if dry p then (s1, inr (VStr "."))
       else let '(w2, c) := copytree X w1 fmf_root (testdir p) in
            (after s1 w2 (EvCopyTree fmf_root (testdir p)),
             match c with inl e => inl e | inr _ => inr (VStr ".") end))
    ∧ (∀ s' : state W, adjust_path (VStr ".") s' = (s', inr ""))
    ∧ (∀ s' path tree_path prefix_path,
         acquire X p s = (s', inr (path, tree_path, prefix_path)) → path = "")
    ∧ (∀ w2,
         dry p = false →
         copytree X w1 fmf_root (testdir p) = (w2, inr tt) →
         truthy (get (data s) "ref" VNone) = false →
         isdir X w2 (PosixPath.join (testdir p) "") = true →
         acquire X p s =
           (after s1 w2 (EvCopyTree fmf_root (testdir p)),
            inr ("", PosixPath.join (testdir p) "", "/tests/"))).
Proof.
  intros W X p s fmf_root w1 msg Hurl Hroot Hne Hdir Hexec s1.
  assert (fetch_source X p s =
      (if dry p then (s1, inr (VStr "."))
       else let '(w2, c) := copytree X w1 fmf_root (testdir p) in
            (after s1 w2 (EvCopyTree fmf_root (testdir p)),
             match c with inl e => inl e | inr _ => inr (VStr ".") end))) as Hf.
  { rewrite fetch_source_local by done.
    apply (copy_local_eq X p _ s fmf_root w1 (inl (RunError msg)) fmf_root ".");
      [done | done | done | done | by apply relpath_same]. }
  split_and!; [done | done | |].
  - intros s' path tp pp Ha.
    eapply acquire_dot in Ha; [by destruct Ha|].
    intros sa pa. rewrite Hf. destruct (dry p); [by intros [= <- <-]|].
    destruct (copytree X w1 fmf_root (testdir p)) as [w2 [e|[]]]; [done|].
    by intros [= <- <-].
  - intros w2 Hdry Hcopy Href Htree. apply acquire_ok.
    + by rewrite Hf, Hdry, Hcopy.
    + done.
    + by left.
Qed.

Lemma C6_fallback_to_metadata_root_witness :
  let X := Fixture.collaborators [(Fixture.testdir +:+ "/")]
                                 Fixture.git_no_repository [] in
  let p := Fixture.the_plugin false in
  let s := Fixture.start ∅ in
  acquire X p s =
    (after (after s tt (EvRun rev_parse (Some "/home/user/repo"))) tt
           (EvCopyTree "/home/user/repo" Fixture.testdir),
     inr ("", Fixture.testdir +:+ "/", "/tests/")).
Proof.
  intros X p s.
  pose proof (C6_fallback_to_metadata_root X p s "/home/user/repo" tt
                "fatal: not a git repository"
                eq_refl eq_refl ltac:(discriminate) ltac:(discriminate) eq_refl)
    as (_ & _ & _ & Hacquire).
  exact (Hacquire tt eq_refl eq_refl eq_refl eq_refl).
Defined.

Lemma lstrip_not_sep s : Str.startswith "/" (Str.lstrip Str.slash s) = false.
Proof.
  induction s as [|a s IH]; [done|]. cbn [Str.lstrip].
  case_bool_decide as Ha; [done|].
  cbn. rewrite bool_decide_eq_false_2; [done|]. by intros <-.
Qed.

Lemma prefix_path_eq path :
  PosixPath.join "/tests" (Str.lstrip Str.slash path)
  = "/tests/" +:+ Str.lstrip Str.slash path.
Proof. unfold PosixPath.join. by rewrite lstrip_not_sep. Qed.

(** C3, as the code has it: with no [url] and no [path], and the root of
    the plan's tree the root of its repository, the path computed is ['.'],
    taken as the empty path, and the prefix of the test paths is [/tests/],
    with the separator [os.path.join] puts after [/tests]: whenever the
    acquisition ends well these are its results, it does end well once the
    copy is done, there is no [ref] and the copied tree is in place, and in
    dry mode when there is no [ref]. For any path the prefix is [/tests/]
    followed by the path without its leading separators. *)
Theorem C3_prefix_at_repository_root :
  ∀ {W} (X : externals W) (p : plugin) (s : state W) (w1 : W) (out : string),
    truthy (get (data s) "url" VNone) = false →
    truthy (get (data s) "path" VNone) = false →
    tree_root p ≠ "" →
    exec X (world s) rev_parse (Some (tree_root p)) = (w1, inr out) →
    PosixPath.abspath (getcwd X w1) (Str.strip Str.newline out)
      = PosixPath.abspath (getcwd X w1) (tree_root p) →
    let s1 := after s w1 (EvRun rev_parse (Some (tree_root p))) in
    let git_root := Str.strip Str.newline out in
    (∀ s' path tree_path prefix_path,
       acquire X p s = (s', inr (path, tree_path, prefix_path)) →
       path = "" ∧ prefix_path = "/tests/")
    ∧ (∀ w2,
         dry p = false →
         copytree X w1 git_root (testdir p) = (w2, inr tt) →
         truthy (get (data s) "ref" VNone) = false →
         isdir X w2 (PosixPath.join (testdir p) "") = true →
         acquire X p s =
           (after s1 w2 (EvCopyTree git_root (testdir p)),
            inr ("", PosixPath.join (testdir p) "", "/tests/")))
    ∧ (dry p = true →
       truthy (get (data s) "ref" VNone) = false →
       acquire X p s = (s1, inr ("", PosixPath.join (testdir p) "", "/tests/")))
    ∧ (∀ path, PosixPath.join "/tests" (Str.lstrip Str.slash path)
               = "/tests/" +:+ Str.lstrip Str.slash path).
Proof.
  intros W X p s w1 out Hurl Hpath Hne Hexec Hsame s1 git_root.
  assert (fetch_source X p s =
      (if dry p then (s1, inr (VStr "."))
       else let '(w2, c) := copytree X w1 git_root (testdir p) in
            (after s1 w2 (EvCopyTree git_root (testdir p)),
             match c with inl e => inl e | inr _ => inr (VStr ".") end))) as Hf.
  { rewrite fetch_source_local by done.
    apply (copy_local_eq X p _ s (tree_root p) w1 (inr out) git_root ".").
    - unfold fmf_root_of. by rewrite Hpath.
    - by rewrite Hpath.
    - done.
    - done.
    - by apply relpath_same. }
  split_and!.
  - intros s' path tp pp Ha.
    eapply acquire_dot in Ha; [by destruct Ha as (? & ? & ?)|].
    intros sa pa. rewrite Hf. destruct (dry p); [by intros [= <- <-]|].
    destruct (copytree X w1 git_root (testdir p)) as [w2 [e|[]]]; [done|].
    by intros [= <- <-].
  - intros w2 Hdry Hcopy Href Htree. apply acquire_ok.
    + by rewrite Hf, Hdry, Hcopy.
    + done.
    + by left.
  - intros Hdry Href. apply acquire_ok.
    + by rewrite Hf, Hdry.
    + done.
    + by right.
  - apply prefix_path_eq.
Qed.

Lemma C3_prefix_at_repository_root_witness :
  let X := Fixture.collaborators [(Fixture.testdir +:+ "/")]
             (Fixture.git_repository "/home/user/repo" []) [] in
  let p := Fixture.the_plugin false in
  let s := Fixture.start ∅ in
  acquire X p s =
    (after (after s tt (EvRun rev_parse (Some "/home/user/repo"))) tt
           (EvCopyTree "/home/user/repo" Fixture.testdir),
     inr ("", Fixture.testdir +:+ "/", "/tests/")).
Proof.
  intros X p s.
  pose proof (C3_prefix_at_repository_root X p s tt ("/home/user/repo" +:+ Str.nl)
                eq_refl eq_refl ltac:(discriminate) eq_refl eq_refl)
    as (_ & Hacquire & _).
  exact (Hacquire tt eq_refl eq_refl eq_refl eq_refl).
Defined.

(** C3 as stated fails on the prefix: at the root of a repository, with no
    [url] and no [path], the path is empty but the prefix is [/tests/], not
    [/tests]. *)
Lemma C3_prefix_is_not_bare_tests :
  let X := Fixture.collaborators [(Fixture.testdir +:+ "/")]
             (Fixture.git_repository "/home/user/repo" []) [] in
  let r := acquire X (Fixture.the_plugin false) (Fixture.start ∅) in
  snd r = inr ("", Fixture.testdir +:+ "/", "/tests/")
  ∧ ∀ tree_path, snd r ≠ inr ("", tree_path, "/tests").
Proof. vm_compute. split; [done|]. intros tree_path [=]. Qed.

(** ** Rewriting the paths *)

Lemma prefixed_cases prefix_path path :
  prefixed prefix_path path =
  if negb (Str.nonempty prefix_path) || Str.endswith Str.slash prefix_path
  then prefix_path +:+ Str.lstrip Str.slash path
  else prefix_path +:+ "/" +:+ Str.lstrip Str.slash path.
Proof. unfold prefixed, PosixPath.join. by rewrite lstrip_not_sep. Qed.

Section Loop.
Context {W : Type} (X : externals W).

Lemma prefix_tests_ok prefix_path todo :
  ∀ done (s s' : state W),
    self_tests s = done ++ todo →
    prefix_tests X prefix_path done todo s = (s', inr tt) →
    trace s' = trace s ++ concat (loop_events prefix_path <$> todo)
    ∧ ∃ todo', self_tests s' = done ++ todo'
               ∧ path <$> todo' = (prefixed prefix_path ∘ path) <$> todo
               ∧ name <$> todo' = name <$> todo.
Proof.
  induction todo as [|t rest IH]; intros done s s' Hs Hrun.
  - cbv in Hrun. simplify_eq. rewrite app_nil_r. split; [done|]. by exists [].
  - cbn [prefix_tests] in Hrun.
    apply bind_inv_ok in Hrun as (s1 & [] & H1 & Hrun). cbv [set_tests] in H1.
    apply bind_inv_ok in Hrun as (s2 & [] & H2 & Hrun). cbv [log] in H2.
    apply bind_inv_ok in Hrun as (s3 & t2 & H3 & Hrun).
    simplify_eq. cbn [self_tests trace world data] in *.
    set (t1 := set_path t (prefixed prefix_path (path t))) in *.
    assert (trace s3 = (trace s ++ [EvSetPath (name t) (prefixed prefix_path (path t))])
                       ++ match require t, recommend t with
                          | [], [] => []
                          | _, _ => [EvDependencies (name t) (require t) (recommend t)]
                          end
            ∧ self_tests s3 = done ++ t2 :: rest
            ∧ path t2 = prefixed prefix_path (path t) ∧ name t2 = name t)
      as (Htr & Hts & Hpath & Hname).
    { unfold handle_requires in H3. cbn [t1 set_path require recommend name] in H3.
      destruct (require t) as [|rq0 rq], (recommend t) as [|rc0 rc];
        [ cbv [ret] in H3; simplify_eq; cbn [trace self_tests];
          by rewrite app_nil_r | ..];
        apply bind_inv_ok in H3 as (sx & [rq' rc'] & Hc & H3);
        cbv [call] in Hc; cbn [world data self_tests trace] in Hc;
        destruct (dependencies X (world s) _ _) as [w' [e|res]]; simplify_eq;
        cbv [bind set_tests ret] in H3; simplify_eq;
        cbn [trace self_tests]; done. }
    apply IH in Hrun as (Htr' & todo' & Hts' & Hp' & Hn');
      [|by rewrite Hts, <- app_assoc].
    split.
    + rewrite Htr', Htr. cbn [fmap list_fmap concat loop_events].
      by rewrite <- !app_assoc.
    + exists (t2 :: todo'). rewrite Hts', <- app_assoc. split; [done|].
      cbn [fmap list_fmap]. cbn [fmap list_fmap] in Hp', Hn'.
      rewrite Hp', Hn', Hpath, Hname. done.
Qed.

Lemma prefix_tests_total prefix_path :
  (∀ w rq rc, ∃ w' r, dependencies X w rq rc = (w', inr r)) →
  ∀ todo done (s : state W),
    ∃ s', prefix_tests X prefix_path done todo s = (s', inr tt).
Proof.
  intros Hdep todo. induction todo as [|t rest IH]; intros done s.
  - by exists s.
  - cbn [prefix_tests]. unfold handle_requires.
    cbn [set_path require recommend name path].
    destruct (require t) as [|rq0 rq] eqn:Hrq, (recommend t) as [|rc0 rc] eqn:Hrc;
      mstep; try apply IH;
      match goal with
      | |- context [dependencies X ?w ?a ?b] =>
          destruct (Hdep w a b) as (w' & [rq' rc'] & ->)
      end; apply IH.
Qed.

Lemma set_paths_of_loop prefix_path (ts : list Test) :
  filter (λ e, is_set_path e = true) (concat (loop_events prefix_path <$> ts))
  = (λ t, EvSetPath (name t) (prefixed prefix_path (path t))) <$> ts.
Proof.
  induction ts as [|t ts IH]; [done|].
  cbn [fmap list_fmap concat]. rewrite filter_app, IH. unfold loop_events.
  rewrite filter_cons_True by done.
  destruct (require t), (recommend t); by rewrite ?filter_cons_False, ?filter_nil by done.
Qed.

End Loop.

(** C4, as the code has it: the loop over the tests the query gave sets the
    path of every test, once and in the order of selection, to
    [os.path.join(prefix_path, path.lstrip('/'))]: nothing is normalized.
    This is the prefix followed by the path without its leading separators,
    with a separator between the two unless the prefix is empty or ends in
    one; with an empty prefix it is the path without its leading
    separators. The path of a test is set right before the library hook is
    called for that test, so after the hook of the tests before it; the
    loop ends well whenever the hook does. *)
Theorem C4_path_rewrite :
  ∀ {W} (X : externals W) (prefix_path : string) (tests : list Test)
    (s s' : state W),
    (do _ ← set_tests tests; prefix_tests X prefix_path [] tests) s = (s', inr tt) →
    path <$> self_tests s'
      = (λ t, PosixPath.join prefix_path (Str.lstrip Str.slash (path t))) <$> tests
    ∧ name <$> self_tests s' = name <$> tests
    ∧ trace s' = trace s ++ concat (loop_events prefix_path <$> tests)
    ∧ filter (λ e, is_set_path e = true) (concat (loop_events prefix_path <$> tests))
      = (λ t, EvSetPath (name t) (prefixed prefix_path (path t))) <$> tests
    ∧ (∀ path, prefixed prefix_path path =
               if negb (Str.nonempty prefix_path) || Str.endswith Str.slash prefix_path
               then prefix_path +:+ Str.lstrip Str.slash path
               else prefix_path +:+ "/" +:+ Str.lstrip Str.slash path)
    ∧ (∀ path, prefixed "" path = Str.lstrip Str.slash path)
    ∧ ((∀ w rq rc, ∃ w' r, dependencies X w rq rc = (w', inr r)) →
       ∀ s0 : state W, ∃ s1,
         (do _ ← set_tests tests; prefix_tests X prefix_path [] tests) s0 = (s1, inr tt)).
Proof.
  intros W X prefix_path tests s s' Hrun.
  apply bind_inv_ok in Hrun as (s1 & [] & H1 & Hrun). cbv [set_tests] in H1.
  simplify_eq.
  apply prefix_tests_ok in Hrun as (Htr & todo' & Hts & Hp & Hn); [|done].
  cbn [trace self_tests app] in *. subst todo'. split_and!; try done.
  - apply set_paths_of_loop.
  - apply prefixed_cases.
  - intros path. by rewrite prefixed_cases.
  - intros Hdep s0. unfold bind, set_tests. by apply prefix_tests_total.
Qed.

Lemma C4_path_rewrite_witness :
  let X := Fixture.collaborators [] Fixture.git_ok [] in
  let t1 := {| name := "/smoke"; path := "/smoke"; require := ["library(a/b)"];
               recommend := [] |} in
  let t2 := {| name := "/"; path := "/"; require := []; recommend := [] |} in
  let s' := {| world := tt; data := ∅;
               self_tests := [set_path t1 "/tests/smoke"; set_path t2 "/tests/"];
               trace := [EvSetPath "/smoke" "/tests/smoke";
                         EvDependencies "/smoke" ["library(a/b)"] [];
                         EvSetPath "/" "/tests/"] |} in
  path <$> self_tests s' = ["/tests/smoke"; "/tests/"].
Proof.
  intros X t1 t2 s'.
  exact (proj1 (C4_path_rewrite X "/tests/" [t1; t2] (Fixture.start ∅) s' eq_refl)).
Defined.

(** C4 as stated fails. Nothing is normalized: a test at the root of the
    tree gets [/tests/] where the normalized path is [/tests], and dots are
    kept; with an empty prefix the leading separator of the path is gone,
    so the result is not the original path normalized. And the rewrite of a
    test comes after the dependency expansion of the tests before it. *)
Lemma C4_not_normalized :
  prefixed "/tests/" "/" = "/tests/"
  ∧ spec_rewrite "/tests/" "/" = "/tests"
  ∧ prefixed "/tests/" "/" ≠ spec_rewrite "/tests/" "/"
  ∧ prefixed "/tests/" "/a/../b" = "/tests/a/../b"
  ∧ spec_rewrite "/tests/" "/a/../b" = "/tests/b"
  ∧ prefixed "/tests/" "/a/../b" ≠ spec_rewrite "/tests/" "/a/../b"
  ∧ prefixed "" "/a" = "a"
  ∧ spec_rewrite "" "/a" = "/a"
  ∧ PosixPath.normpath "/a" = "/a"
  ∧ let X := Fixture.collaborators [] Fixture.git_ok [] in
    let t1 := {| name := "/a"; path := "/a"; require := ["library(x/y)"];
                 recommend := [] |} in
    let t2 := {| name := "/b"; path := "/b"; require := ["library(x/z)"];
                 recommend := [] |} in
    trace (fst ((do _ ← set_tests [t1; t2]; prefix_tests X "/tests/" [] [t1; t2])
                  (Fixture.start ∅)))
    = [ EvSetPath "/a" "/tests/a"; EvDependencies "/a" ["library(x/y)"] [];
        EvSetPath "/b" "/tests/b"; EvDependencies "/b" ["library(x/z)"] [] ].
Proof. vm_compute. done. Qed.

(** ** What a run may do to the outside

    A property of the state that holds on after any allowed event, whatever
    the world has become, and does not depend on the tests held, is kept by
    every step that emits allowed events only; the steps up to the
    acquisition leave the data alone as well. *)

Section Keeps.
Context {W : Type} (X : externals W) (p : plugin).
Context (allowed : event → Prop) (P : state W → Prop).
Hypothesis P_event : ∀ s w e, allowed e → P s → P (after s w e).
Hypothesis P_tests : ∀ s ts, P s → P (with_tests s ts).
Hypothesis P_data : ∀ s d, P s → P (with_data s d).
Hypothesis allowed_run : ∀ cmd cwd, allowed (EvRun cmd cwd).
Hypothesis allowed_set_path : ∀ n q, allowed (EvSetPath n q).
Hypothesis allowed_dependencies : ∀ n rq rc, allowed (EvDependencies n rq rc).
Hypothesis allowed_copy : dry p = false → ∀ src dst, allowed (EvCopyTree src dst).
Hypothesis allowed_tree : dry p = false → ∀ tp fs ns, allowed (EvTree tp fs ns).

Lemma keeps_ret {A} (a : A) : keeps P (ret a).
Proof. by intros s. Qed.

Lemma keeps_raise {A} e : keeps P (@raise W A e).
Proof. by intros s. Qed.

Lemma keeps_bind {A B} (m : M W A) (k : A → M W B) :
  keeps P m → (∀ a, keeps P (k a)) → keeps P (bind m k).
Proof.
  intros Hm Hk s Hs. unfold bind. specialize (Hm s Hs).
  destruct (m s) as [s1 [e|a]]; [done|]. by apply Hk.
Qed.

Lemma keeps_except {A} (m h : M W A) :
  keeps P m → keeps P h → keeps P (except_RunError m h).
Proof.
  intros Hm Hh s Hs. unfold except_RunError. specialize (Hm s Hs).
  destruct (m s) as [s1 [[]|a]]; try done. by apply Hh.
Qed.

Lemma keeps_call {A} ev (f : W → W * (exn + A)) : allowed ev → keeps P (call ev f).
Proof.
  intros Hev s Hs. unfold call. destruct (f (world s)) as [w r].
  by apply (P_event s w ev).
Qed.

Lemma keeps_self_get option dflt : keeps P (self_get option dflt).
Proof. by intros s. Qed.

Lemma keeps_is_dir path : keeps P (is_dir X path).
Proof. by intros s. Qed.

Lemma keeps_rel_path a b : keeps P (rel_path X a b).
Proof. by intros s. Qed.

Lemma keeps_set_tests ts : keeps P (@set_tests W ts).
Proof. intros s Hs. by apply (P_tests s ts). Qed.

Lemma keeps_log e : allowed e → keeps P (@log W e).
Proof. intros He s Hs. by apply (P_event s (world s) e). Qed.

Lemma keeps_as_str v : keeps P (@as_str W v).
Proof. destruct v; by intros ?. Qed.

Lemma keeps_format v : keeps P (@format W v).
Proof. destruct v as [|[]| | |]; by intros ?. Qed.

Lemma keeps_adjust_path v : keeps P (@adjust_path W v).
Proof.
  destruct v; try by intros ?. unfold adjust_path. by case_match; intros ?.
Qed.

Lemma keeps_show_filters v : keeps P (@show_filters W v).
Proof. destruct v; by intros ?. Qed.

Lemma keeps_extend names more : keeps P (@extend W names more).
Proof.
  destruct names; try by intros ?. intros st Hs. cbn [extend fst].
  unfold extended. destruct (data st !! "test"); [|done]. by apply (P_data st).
Qed.

Lemma keeps_if {A} (c : bool) (m1 m2 : M W A) :
  (c = true → keeps P m1) → (c = false → keeps P m2) →
  keeps P (if c then m1 else m2).
Proof. destruct c; auto. Qed.

Lemma keeps_run cmd cwd force : keeps P (run X p cmd cwd force).
Proof.
  unfold run. apply keeps_if; intros _; [apply keeps_ret|].
  apply keeps_bind; [by apply keeps_call | intros; apply keeps_ret].
Qed.

Ltac keeps_tac :=
  repeat first
    [ apply keeps_ret | apply keeps_raise | apply keeps_self_get
    | apply keeps_is_dir | apply keeps_rel_path | apply keeps_set_tests
    | apply keeps_as_str | apply keeps_format | apply keeps_adjust_path
    | apply keeps_show_filters | apply keeps_extend | apply keeps_run
    | apply keeps_except
    | apply keeps_bind; [|intros ?]
    | apply keeps_if; intros ?
    | progress case_match ].

Lemma keeps_copy_local path : keeps P (copy_local X p path).
Proof.
  unfold copy_local. keeps_tac. apply keeps_call. by apply allowed_copy.
Qed.

Lemma keeps_fetch_source : keeps P (fetch_source X p).
Proof.
  unfold fetch_source.
  apply keeps_bind; [apply keeps_self_get|intros url].
  apply keeps_bind; [apply keeps_self_get|intros path].
  apply keeps_if; intros _; [keeps_tac | apply keeps_copy_local].
Qed.

Lemma keeps_checkout : keeps P (checkout X p).
Proof. unfold checkout. keeps_tac. Qed.

Lemma keeps_locate path : keeps P (locate X p path).
Proof. unfold locate. keeps_tac. Qed.

Lemma keeps_acquire : keeps P (acquire X p).
Proof.
  unfold acquire. apply keeps_bind; [apply keeps_fetch_source|intros ?].
  apply keeps_bind; [apply keeps_checkout|intros ?].
  apply keeps_bind; [apply keeps_adjust_path|intros ?].
  apply keeps_bind; [apply keeps_locate|intros [? ?]]. apply keeps_ret.
Qed.

Lemma keeps_fetch_reference v : keeps P (fetch_reference X p v).
Proof. unfold fetch_reference. keeps_tac. Qed.

Lemma keeps_limit_to_modified om names : keeps P (limit_to_modified X p om names).
Proof. unfold limit_to_modified. keeps_tac. Qed.

Lemma keeps_handle_requires done rest t : keeps P (handle_requires X done rest t).
Proof.
  unfold handle_requires.
  destruct (require t), (recommend t); try apply keeps_ret;
    (apply keeps_bind; [by apply keeps_call | intros [? ?]]); keeps_tac.
Qed.

Lemma keeps_prefix_tests prefix_path todo :
  ∀ done, keeps P (prefix_tests X prefix_path done todo).
Proof.
  induction todo as [|t rest IH]; intros done; [apply keeps_ret|].
  cbn [prefix_tests].
  apply keeps_bind; [apply keeps_set_tests|intros ?].
  apply keeps_bind; [by apply keeps_log|intros ?].
  apply keeps_bind; [apply keeps_handle_requires|intros ?]. apply IH.
Qed.

Lemma keeps_search tree_path prefix_path filters names :
  keeps P (search X p tree_path prefix_path filters names).
Proof.
  unfold search. apply keeps_if; intros Hdry; [apply keeps_set_tests|].
  apply keeps_bind; [by apply keeps_call, allowed_tree | intros ?].
  apply keeps_bind; [apply keeps_set_tests | intros ?]. apply keeps_prefix_tests.
Qed.

Lemma keeps_discover tree_path prefix_path :
  keeps P (discover X p tree_path prefix_path).
Proof.
  unfold discover.
  apply keeps_bind; [apply keeps_self_get|intros ?].
  apply keeps_bind; [apply keeps_show_filters|intros ?].
  apply keeps_bind; [apply keeps_self_get|intros ?].
  apply keeps_bind; [apply keeps_self_get|intros ?].
  apply keeps_bind; [apply keeps_self_get|intros ?].
  apply keeps_bind; [apply keeps_fetch_reference|intros ?].
  apply keeps_bind; [apply keeps_limit_to_modified|intros ?].
  apply keeps_search.
Qed.

Lemma keeps_go : keeps P (go X p).
Proof.
  unfold go. apply keeps_bind; [apply keeps_acquire|intros [[? ?] ?]].
  apply keeps_discover.
Qed.

End Keeps.

(** ** Dry mode *)

Lemma go_dry_trace {W} (X : externals W) (p : plugin) (s : state W) :
  dry p = true →
  ∃ evs, trace (fst (go X p s)) = trace s ++ evs ∧ Forall quiet evs.
Proof.
  intros Hdry.
  apply (keeps_go X p quiet
           (λ s', ∃ evs, trace s' = trace s ++ evs ∧ Forall quiet evs));
    try done; try congruence.
  - intros s' w e He (evs & Htr & Hevs). exists (evs ++ [e]). cbn [after trace].
    split; [by rewrite Htr, app_assoc|]. apply Forall_app. by split; [|constructor].
  - exists []. by rewrite app_nil_r.
Qed.

Lemma go_dry_tests {W} (X : externals W) (p : plugin) (s : state W) :
  dry p = true → snd (go X p s) = inr tt → self_tests (fst (go X p s)) = [].
Proof.
  intros Hdry. destruct (go X p s) as [s' r] eqn:Hgo. cbn [fst snd]. intros ->.
  unfold go in Hgo.
  apply bind_inv_ok in Hgo as (sa & [[pa tp] pp] & _ & Hd).
  unfold discover, search in Hd. rewrite Hdry in Hd.
  repeat (apply bind_inv_ok in Hd as (? & ? & _ & Hd)).
  cbv [set_tests] in Hd. by simplify_eq.
Qed.

(** C8, as the code has it: in dry mode the run neither copies the source
    tree nor queries the metadata tree, whatever the configuration and
    whatever the collaborators answer; the check that the metadata tree is
    there never raises; and a run that ends well leaves the empty list of
    tests. (A run in dry mode may still raise: the path is validated and
    the lookup of the repository's root is executed.) *)
Theorem C8_dry_run :
  ∀ {W} (X : externals W) (p : plugin) (s : state W),
    dry p = true →
    (∃ evs, trace (fst (go X p s)) = trace s ++ evs ∧ Forall quiet evs)
    ∧ (snd (go X p s) = inr tt → tests (fst (go X p s)) = [])
    ∧ (∀ path s0,
         locate X p path s0 =
           (s0, inr (PosixPath.join (testdir p) (Str.lstrip Str.slash path),
                     PosixPath.join "/tests" (Str.lstrip Str.slash path)))).
Proof.
  intros W X p s Hdry. split_and!.
  - by apply go_dry_trace.
  - by apply go_dry_tests.
  - intros path s0. by apply locate_dry.
Qed.

Lemma C8_dry_run_witness :
  let X := Fixture.collaborators [] (Fixture.git_repository "/home/user/repo" []) [] in
  tests (fst (go X (Fixture.the_plugin true) (Fixture.start ∅))) = [].
Proof.
  intros X.
  exact (proj1 (proj2 (C8_dry_run X (Fixture.the_plugin true) (Fixture.start ∅)
                         eq_refl)) eq_refl).
Defined.

(** C8 as stated fails: not every configuration run in dry mode returns an
    empty list of tests. With no [url] and a [path] that is not a directory
    the run raises the discovery error in dry mode too. *)
Lemma C8_dry_run_still_validates :
  let X := Fixture.collaborators [] Fixture.git_ok [] in
  let p := Fixture.the_plugin true in
  let s := Fixture.start {[ "path" := VStr "/nonexistent" ]} in
  dry p = true
  ∧ go X p s = (s, inl (DiscoverError "Provided path '/nonexistent' is not a directory."))
  ∧ snd (go X p s) ≠ inr tt.
Proof. vm_compute. done. Qed.

(** ** The reference remote *)

Section Reference.
Context {W : Type} (X : externals W) (p : plugin).

Lemma acquire_data s sa r : acquire X p s = (sa, r) → data sa = data s.
Proof.
  intros H. change sa with (fst (sa, r)). rewrite <- H.
  by apply (keeps_acquire X p (λ _, True) (λ s', data s' = data s)).
Qed.

Lemma fetch_reference_data v s s1 r :
  fetch_reference X p v s = (s1, r) → data s1 = data s.
Proof.
  intros H. change s1 with (fst (s1, r)). rewrite <- H.
  by apply (keeps_fetch_reference X p (λ _, True) (λ s', data s' = data s)).
Qed.



Lemma fetch_reference_eq u s :
  dry p = false → u ≠ "" →
  fetch_reference X p (VStr u) s =
  let '(w1, r1) := exec X (world s) (remote_add u) (Some (testdir p)) in
  let s1 := after s w1 (EvRun (remote_add u) (Some (testdir p))) in
  match r1 with
  | inl e => (s1, inl e)
  | inr _ =>
      let '(w2, r2) := exec X w1 fetch_remote (Some (testdir p)) in
      (after s1 w2 (EvRun fetch_remote (Some (testdir p))),
       match r2 with inl e => inl e | inr _ => inr tt end)
  end.
Proof.
  intros Hdry Hu. unfold fetch_reference.
  assert (truthy (VStr u) = true) as -> by (by destruct u).
  rewrite (bind_ok _ _ s s u) by done.
  unfold bind at 1. rewrite run_executed by done. fold (remote_add u).
  destruct (exec X (world s) (remote_add u) (Some (testdir p))) as [w1 [e|o1]];
    [done|].
  unfold bind at 1. rewrite run_executed by done. fold fetch_remote.
  cbn [world after].
  by destruct (exec X w1 fetch_remote (Some (testdir p))) as [w2 [e|o2]].
Qed.

End Reference.



(** ** Only the modified tests *)

Section Modified.
Context {W : Type} (X : externals W) (p : plugin).





End Modified.



(** ** A whole run

    The patterns of the modified set follow the explicit names in the order
    [elements] gives them. *)

Example go_modified_run :
  let files := ["a/b/x"; "a/b/y"; "c/z"] in
  let nodes := [ {| name := "/a/b"; path := "/a/b"; require := []; recommend := [] |};
                 {| name := "/foo"; path := "/foo"; require := ["library(x/y)"];
                    recommend := [] |};
                 {| name := "/other"; path := "/other"; require := [];
                    recommend := [] |} ] in
  let X := Fixture.collaborators [(Fixture.testdir +:+ "/")]
             (Fixture.git_repository "/home/user/repo" files) nodes in
  let s := Fixture.start {[ "only_modified" := VBool true;
                            "test" := VList [VStr "/foo"] ]} in
  let r := go X (Fixture.the_plugin false) s in
  snd r = inr tt
  ∧ tests (fst r)
    = [ {| name := "/a/b"; path := "/tests/a/b"; require := []; recommend := [] |};
        {| name := "/foo"; path := "/tests/foo"; require := ["library(x/y)"];
           recommend := [] |} ]
  ∧ data (fst r) !! "test"
    = Some (VList [VStr "/foo"; VStr "^/c$"; VStr "^/a/b$"]).
Proof. vm_compute. done. Qed.

(* ================================================================= *)
(** * Further properties of the plugin *)

(** ** [wake]: legacy keys, the command line, other keys *)

Lemma rename_key_lookup_full old new data k :
  old ≠ new →
  rename_key old new data !! k =
  if decide (k = old) then None
  else if decide (k = new) then
    match data !! old with Some v => Some v | None => data !! new end
  else data !! k.
Proof.
  intros Hne. unfold rename_key. destruct (data !! old) as [v|] eqn:Hold.
  - repeat case_decide; subst.
    + by rewrite lookup_insert_ne, lookup_delete_eq.
    + by rewrite lookup_insert_eq.
    + by rewrite lookup_insert_ne, lookup_delete_ne.
  - repeat case_decide; by subst.
Qed.

Lemma as_list_idemp v : as_list (as_list v) = as_list v.
Proof. unfold as_list. by destruct v. Qed.

Lemma foldl_listify_lookup keys : ∀ data k,
  foldl listify data keys !! k =
  if bool_decide (k ∈ keys) then as_list <$> data !! k else data !! k.
Proof.
  induction keys as [|key keys IH]; intros data k; [done|].
  cbn [foldl]. rewrite IH, listify_lookup. fold as_list.
  destruct (decide (key = k)) as [->|Hne].
  - rewrite (bool_decide_eq_true_2 (k ∈ k :: keys)) by apply list_elem_of_here.
    case_bool_decide; [|done].
    destruct (data !! k); [|done]. cbn. by rewrite as_list_idemp.
  - case_bool_decide as Hk.
    + by rewrite bool_decide_eq_true_2 by (by apply list_elem_of_further).
    + rewrite bool_decide_eq_false_2; [done|].
      intros [?|?]%elem_of_cons; by subst.
Qed.

Lemma foldl_override_lookup c names : ∀ data k,
  foldl (override c) data names !! k =
  if bool_decide (k ∈ names) && truthy (opt c k) then Some (opt c k)
  else data !! k.
Proof.
  induction names as [|n names IH]; intros data k; [done|].
  cbn [foldl]. rewrite IH, override_lookup.
  destruct (decide (n = k)) as [->|Hne].
  - rewrite (bool_decide_eq_true_2 (k ∈ k :: names)) by apply list_elem_of_here.
    cbn [andb]. destruct (truthy (opt c k)); [|by rewrite andb_false_r].
    by case_bool_decide.
  - case_bool_decide as Hk.
    + by rewrite bool_decide_eq_true_2 by (by apply list_elem_of_further).
    + rewrite bool_decide_eq_false_2; [done|].
      intros [?|?]%elem_of_cons; by subst.
Qed.

(** What [wake] leaves under any key. *)
Lemma wake_lookup c data k :
  wake c data !! k =
  if bool_decide (k ∈ option_names) && truthy (opt c k) then Some (opt c k)
  else if bool_decide (k ∈ ["filter"; "test"]) then as_list <$> renamed data !! k
  else renamed data !! k.
Proof.
  change (wake c data)
    with (foldl (override c) (foldl listify (renamed data) ["filter"; "test"])
                option_names).
  by rewrite foldl_override_lookup, foldl_listify_lookup.
Qed.

Lemma renamed_lookup data k :
  renamed data !! k =
  if decide (k = "revision") then None
  else if decide (k = "ref") then
    match data !! "revision" with Some v => Some v | None => data !! "ref" end
  else if decide (k = "repository") then None
  else if decide (k = "url") then
    match data !! "repository" with Some v => Some v | None => data !! "url" end
  else data !! k.
Proof.
  unfold renamed. rewrite rename_key_lookup_full by done.
  repeat case_decide; subst; try done;
    rewrite !rename_key_lookup_full by done; repeat case_decide; by subst.
Qed.

(** X1: [wake] moves the value of the legacy key ['repository'] to ['url']
    and that of ['revision'] to ['ref'], and removes the legacy keys. For
    ['url'] and ['ref'] the command line comes first, then the legacy key,
    then the key itself: a legacy key overwrites a value already under the
    new key. *)
Theorem X1_wake_legacy_keys :
  ∀ c data,
    wake c data !! "repository" = None
    ∧ wake c data !! "revision" = None
    ∧ wake c data !! "url" =
        (if truthy (of_option (o_url c)) then Some (of_option (o_url c))
         else match data !! "repository" with
              | Some v => Some v
              | None => data !! "url"
              end)
    ∧ wake c data !! "ref" =
        (if truthy (of_option (o_ref c)) then Some (of_option (o_ref c))
         else match data !! "revision" with
              | Some v => Some v
              | None => data !! "ref"
              end).
Proof.
  intros c data. rewrite !wake_lookup, !renamed_lookup. split_and!; done.
Qed.

(** X2: for each of the eight options [wake] reads, a value given on the
    command line that is true (a non-empty string, a non-empty tuple of
    names or filters, the flag set) replaces what the data holds; one that
    is not (the option not given, an empty string, the flag not set) leaves
    the data's value, so the command line cannot switch [only_modified]
    off. *)
Theorem X2_wake_command_line :
  ∀ c data k,
    k ∈ option_names →
    wake c data !! k =
      if truthy (opt c k) then Some (opt c k)
      else if bool_decide (k ∈ ["filter"; "test"])
           then (λ v, if is_list v then v else VList [v]) <$> renamed data !! k
           else renamed data !! k.
Proof.
  intros c data k Hk. rewrite wake_lookup.
  by rewrite (bool_decide_eq_true_2 _ Hk).
Qed.

Lemma X2_wake_command_line_witness :
  wake {| o_url := Some "https://github.com/psss/fmf"; o_ref := None;
          o_reference_url := None; o_reference_ref := None;
          o_only_modified := false; o_path := None;
          o_test := []; o_filter := []; o_dry := false |}
       {[ "only_modified" := VBool true ]} !! "only_modified"
  = Some (VBool true).
Proof.
  exact (X2_wake_command_line _ {[ "only_modified" := VBool true ]} "only_modified"
           ltac:(apply (bool_decide_unpack _); vm_compute; exact I)).
Defined.

(** X3: [wake] leaves every key alone that is neither one of the eight
    options nor a legacy key. *)
Theorem X3_wake_other_keys :
  ∀ c data k,
    k ∉ option_names → k ≠ "repository" → k ≠ "revision" →
    wake c data !! k = data !! k.
Proof.
  intros c data k Hk Hrepo Hrev. rewrite wake_lookup.
  rewrite (bool_decide_eq_false_2 _ Hk). cbn [andb].
  rewrite bool_decide_eq_false_2.
  - rewrite renamed_lookup. repeat case_decide; subst; try done.
    + exfalso. apply Hk. apply (bool_decide_unpack _). by vm_compute.
    + exfalso. apply Hk. apply (bool_decide_unpack _). by vm_compute.
  - intros Hft. apply Hk.
    apply elem_of_cons in Hft as [->|Hft%list_elem_of_singleton];
      [|subst]; apply (bool_decide_unpack _); by vm_compute.
Qed.

Lemma X3_wake_other_keys_witness :
  wake (Fixture.command_line false)
       {[ "how" := VStr "fmf"; "repository" := VStr "https://github.com/psss/tmt" ]}
    !! "how"
  = Some (VStr "fmf").
Proof.
  exact (X3_wake_other_keys (Fixture.command_line false)
           {[ "how" := VStr "fmf";
              "repository" := VStr "https://github.com/psss/tmt" ]} "how"
           ltac:(apply (bool_decide_unpack _); vm_compute; exact I)
           ltac:(discriminate) ltac:(discriminate)).
Defined.

(** X4: waking up twice is waking up once. *)
Theorem X4_wake_idempotent :
  ∀ c data, wake c (wake c data) = wake c data.
Proof.
  intros c data. apply map_eq. intros k.
  rewrite (wake_lookup c (wake c data)).
  assert (renamed (wake c data) = wake c data) as ->.
  { unfold renamed, rename_key.
    assert (wake c data !! "repository" = None) as ->
      by (by rewrite wake_lookup, renamed_lookup).
    assert (wake c data !! "revision" = None) as ->
      by (by rewrite wake_lookup, renamed_lookup).
    done. }
  rewrite wake_lookup.
  destruct (bool_decide (k ∈ option_names) && truthy (opt c k)); [done|].
  case_bool_decide; [|done].
  destruct (renamed data !! k); [|done]. cbn. by rewrite as_list_idemp.
Qed.

(** ** [go]: cloning and checking out *)

Section Clone.
Context {W : Type} (X : externals W) (p : plugin).

Lemma get_ref_default (d : gmap string value) :
  d !! "ref" = None →
  get d "ref" VNone = if truthy (get d "url" VNone) then VStr "master" else VNone.
Proof.
  intros Href. unfold get. rewrite Href. unfold default.
  cbn [bool_decide andb]. rewrite bool_decide_eq_true_2 by done. cbn [andb].
  destruct (d !! "url") as [v|]; [done|]. cbn. done.
Qed.

Lemma fetch_source_url s u :
  dry p = false → get (data s) "url" VNone = VStr u → u ≠ "" →
  fetch_source X p s =
  let '(w1, r1) := exec X (world s) (git_clone u (testdir p)) None in
  (after s w1 (EvRun (git_clone u (testdir p)) None),
   match r1 with
   | inl e => inl e
   | inr _ => inr (get (data s) "path" VNone)
   end).
Proof.
  intros Hdry Hurl Hu. unfold fetch_source.
  rewrite (bind_ok _ _ s s (VStr u)) by (unfold self_get; by rewrite Hurl).
  rewrite (bind_ok _ _ s s (get (data s) "path" VNone)) by done.
  assert (truthy (VStr u) = true) as -> by (by destruct u).
  rewrite (bind_ok _ _ s s u) by done.
  unfold bind. rewrite run_executed by done. fold (git_clone u (testdir p)).
  by destruct (exec X (world s) (git_clone u (testdir p)) None) as [w1 [e|o]].
Qed.

Lemma checkout_ref s r :
  dry p = false → get (data s) "ref" VNone = VStr r → r ≠ "" →
  checkout X p s =
  let '(w, res) := exec X (world s) (git_checkout r) (Some (testdir p)) in
  (after s w (EvRun (git_checkout r) (Some (testdir p))),
   match res with inl e => inl e | inr _ => inr tt end).
Proof.
  intros Hdry Href Hr. unfold checkout.
  rewrite (bind_ok _ _ s s (VStr r)) by (unfold self_get; by rewrite Href).
  assert (truthy (VStr r) = true) as -> by (by destruct r).
  rewrite (bind_ok _ _ s s r) by done.
  unfold bind. rewrite run_executed by done. fold (git_checkout r).
  by destruct (exec X (world s) (git_checkout r) (Some (testdir p))) as [w [e|o]].
Qed.

End Clone.

(** X5: the revision checked out. With no ['ref'] in the data, [ref] is
    [master] when a [url] is set and nothing otherwise, in which case no
    checkout is run. In a run that is not dry, with a [url] and no ['ref'],
    a clone that succeeds is followed by [git checkout -f master] in the
    test directory, and an error of the checkout ends the acquisition with
    that error, before the metadata tree is looked for. *)
Theorem X5_clone_checks_out_master :
  ∀ {W} (X : externals W) (p : plugin) (s : state W) (u : string)
    (w1 : W) (out : string),
    dry p = false →
    get (data s) "url" VNone = VStr u →
    u ≠ "" →
    data s !! "ref" = None →
    exec X (world s) (git_clone u (testdir p)) None = (w1, inr out) →
    let s1 := after s w1 (EvRun (git_clone u (testdir p)) None) in
    get (data s) "ref" VNone = VStr "master"
    ∧ acquire X p s =
        (let '(w2, r) := exec X w1 (git_checkout "master") (Some (testdir p)) in
         let s2 := after s1 w2 (EvRun (git_checkout "master") (Some (testdir p))) in
         match r with
         | inl e => (s2, inl e)
         | inr _ =>
             (do path ← adjust_path (get (data s) "path" VNone);
              do '(tree_path, prefix_path) ← locate X p path;
              ret (path, tree_path, prefix_path)) s2
         end)
    ∧ (∀ s0 : state W,
         data s0 !! "ref" = None →
         truthy (get (data s0) "url" VNone) = false →
         checkout X p s0 = (s0, inr tt)).
Proof.
  intros W X p s u w1 out Hdry Hurl Hu Href Hclone s1.
  assert (get (data s) "ref" VNone = VStr "master") as Hmaster.
  { rewrite get_ref_default, Hurl by done. by destruct u. }
  split_and!; [done | |].
  - unfold acquire. unfold bind at 1.
    rewrite (fetch_source_url X p s u) by done. rewrite Hclone.
    unfold bind at 1. rewrite (checkout_ref X p _ "master") by done.
    cbn [after world].
    by destruct (exec X w1 (git_checkout "master") (Some (testdir p))) as [w2 [e|o]].
  - intros s0 Href0 Hurl0. apply checkout_none.
    by rewrite get_ref_default, Hurl0.
Qed.

Lemma X5_clone_checks_out_master_witness :
  let X := Fixture.collaborators [Fixture.testdir +:+ "/"] Fixture.git_ok [] in
  let s := Fixture.start {[ "url" := VStr "https://github.com/psss/tmt" ]} in
  get (data s) "ref" VNone = VStr "master".
Proof.
  intros X s.
  exact (proj1 (X5_clone_checks_out_master X (Fixture.the_plugin false) s
                  "https://github.com/psss/tmt" tt ""
                  eq_refl eq_refl ltac:(discriminate) eq_refl eq_refl)).
Defined.

(** X6: in a run that is not dry, with a [url] set, a clone that fails
    ends [go] with the error of the clone: the clone is the only thing
    done. *)
Theorem X6_clone_failure_is_fatal :
  ∀ {W} (X : externals W) (p : plugin) (s : state W) (u : string)
    (w1 : W) (e : exn),
    dry p = false →
    get (data s) "url" VNone = VStr u →
    u ≠ "" →
    exec X (world s) (git_clone u (testdir p)) None = (w1, inl e) →
    go X p s = (after s w1 (EvRun (git_clone u (testdir p)) None), inl e).
Proof.
  intros W X p s u w1 e Hdry Hurl Hu Hclone.
  unfold go, acquire. do 2 apply bind_raise.
  by rewrite (fetch_source_url X p s u), Hclone.
Qed.

Lemma X6_clone_failure_is_fatal_witness :
  let X := Fixture.collaborators []
             (λ _, inl (RunError "fatal: repository not found")) [] in
  let s := Fixture.start {[ "url" := VStr "https://github.com/psss/none" ]} in
  go X (Fixture.the_plugin false) s
  = (after s tt (EvRun (git_clone "https://github.com/psss/none" Fixture.testdir) None),
     inl (RunError "fatal: repository not found")).
Proof.
  intros X s.
  exact (X6_clone_failure_is_fatal X (Fixture.the_plugin false) s
           "https://github.com/psss/none" tt
           (RunError "fatal: repository not found")
           eq_refl eq_refl ltac:(discriminate) eq_refl).
Defined.

(** ** [go]: what the acquisition guarantees *)

Section Guarantees.
Context {W : Type} (X : externals W) (p : plugin).

Lemma acquire_inv s sa path tree_path prefix_path :
  acquire X p s = (sa, inr (path, tree_path, prefix_path)) →
  tree_path = PosixPath.join (testdir p) (Str.lstrip Str.slash path)
  ∧ prefix_path = "/tests/" +:+ Str.lstrip Str.slash path
  ∧ path ≠ "."
  ∧ (isdir X (world sa) tree_path = true ∨ dry p = true).
Proof.
  unfold acquire. intros (s1 & v & _ & H)%bind_inv_ok.
  apply bind_inv_ok in H as (s2 & [] & _ & H).
  apply bind_inv_ok in H as (s3 & path' & Ha & H).
  apply bind_inv_ok in H as (s4 & [tp pp] & Hl & H).
  cbv [ret] in H. simplify_eq.
  rewrite locate_eq in Hl.
  assert (path ≠ ".") as Hdot.
  { destruct v; cbv [adjust_path raise ret] in Ha; simplify_eq; try done.
    case_bool_decide; simplify_eq; done. }
  destruct (isdir X (world s3) _) eqn:Hdir, (dry p) eqn:Hdry;
    cbn [negb andb] in Hl; simplify_eq;
    rewrite prefix_path_eq; split_and!; auto.
Qed.





End Guarantees.

(** X7: when the acquisition ends well, the path of the metadata tree
    inside the test directory and the prefix of the test paths come from
    the same relative path, which is never ['.']; the prefix starts with
    [/tests/]; and outside dry mode the metadata tree path is an existing
    directory, so the metadata tree is only ever queried at a directory
    that is there. *)
Theorem X7_acquire_postcondition :
  ∀ {W} (X : externals W) (p : plugin) (s sa : state W)
    (path tree_path prefix_path : string),
    acquire X p s = (sa, inr (path, tree_path, prefix_path)) →
    tree_path = PosixPath.join (testdir p) (Str.lstrip Str.slash path)
    ∧ prefix_path = "/tests/" +:+ Str.lstrip Str.slash path
    ∧ path ≠ "."
    ∧ (dry p = false → isdir X (world sa) tree_path = true).
Proof.
  intros W X p s sa path tp pp Ha.
  apply acquire_inv in Ha as (? & ? & ? & Hdir). split_and!; try done.
  intros Hdry. destruct Hdir; congruence.
Qed.

Lemma X7_acquire_postcondition_witness :
  let X := Fixture.collaborators [Fixture.testdir +:+ "/"]
             (Fixture.git_repository "/home/user/repo" []) [] in
  isdir X tt (Fixture.testdir +:+ "/") = true.
Proof.
  intros X.
  exact (proj2 (proj2 (proj2
           (X7_acquire_postcondition X (Fixture.the_plugin false) (Fixture.start ∅)
              (after (after (Fixture.start ∅) tt
                            (EvRun rev_parse (Some "/home/user/repo"))) tt
                     (EvCopyTree "/home/user/repo" Fixture.testdir))
              "" (Fixture.testdir +:+ "/") "/tests/" eq_refl))) eq_refl).
Defined.



(** ** [go]: with a [url] the local tree is left alone *)

Lemma keeps_bind_at {W A B} (P : state W → Prop) (m : M W A) (k : A → M W B) s :
  P (fst (m s)) → (∀ a, keeps P (k a)) → P (fst (bind m k s)).
Proof.
  intros Hm Hk. unfold bind. destruct (m s) as [s1 [e|a]]; [done|]. by apply Hk.
Qed.

(** X9: with a [url] set, a run never copies a local tree into the test
    directory, in dry mode or not, whatever the collaborators answer. *)
Theorem X9_url_never_copies :
  ∀ {W} (X : externals W) (p : plugin) (s : state W),
    truthy (get (data s) "url" VNone) = true →
    ∃ evs, trace (fst (go X p s)) = trace s ++ evs
           ∧ Forall (λ e, ¬ is_copy e) evs.
Proof.
  intros W X p s Hurl.
  set (allowed := λ e : event, ¬ is_copy e).
  set (P := λ s' : state W, ∃ evs, trace s' = trace s ++ evs ∧ Forall allowed evs).
  assert (∀ s' w e, allowed e → P s' → P (after s' w e)) as P_event.
  { intros s' w e He (evs & Htr & Hevs). exists (evs ++ [e]). cbn [after trace].
    split; [by rewrite Htr, app_assoc|]. apply Forall_app. by split; [|constructor]. }
  assert (∀ cmd cwd, allowed (EvRun cmd cwd)) as allowed_run by (intros ?? []).
  change (P (fst (go X p s))). unfold go, acquire.
  apply keeps_bind_at; [apply keeps_bind_at|].
  - unfold fetch_source.
    rewrite (bind_ok _ _ s s (get (data s) "url" VNone)) by done.
    rewrite (bind_ok _ _ s s (get (data s) "path" VNone)) by done.
    rewrite Hurl.
    apply keeps_bind_at.
    + destruct (get (data s) "url" VNone); cbn [as_str raise ret fst];
        (exists []; by rewrite app_nil_r).
    + intros u. apply keeps_bind; [by apply (keeps_run X p allowed)|].
      intros _. apply keeps_ret.
  - intros path. apply keeps_bind; [by apply (keeps_checkout X p allowed)|intros _].
    apply keeps_bind; [apply keeps_adjust_path|intros path'].
    apply keeps_bind; [apply keeps_locate|intros [tp pp]]. apply keeps_ret.
  - intros [[path tp] pp]. apply (keeps_discover X p allowed); try done.
    all: by intros; intros [].
Qed.

Lemma X9_url_never_copies_witness :
  let X := Fixture.collaborators [Fixture.testdir +:+ "/"] Fixture.git_ok [] in
  let s := Fixture.start {[ "url" := VStr "https://github.com/psss/tmt" ]} in
  ∃ evs, trace (fst (go X (Fixture.the_plugin false) s)) = trace s ++ evs
         ∧ Forall (λ e, ¬ is_copy e) evs.
Proof.
  intros X s.
  exact (X9_url_never_copies X (Fixture.the_plugin false) s eq_refl).
Defined.

(** ** [go]: failures on the way to the modified set *)

Section Failures.
Context {W : Type} (X : externals W) (p : plugin).

(** [go] from the acquisition to the reference remote. *)
Lemma go_after_acquire s sa path tp pp :
  acquire X p s = (sa, inr (path, tp, pp)) →
  is_sequence (get (data s) "filter" (VList [])) = true →
  go X p s =
  (do _ ← fetch_reference X p (get (data s) "reference_url" VNone);
   do names ← limit_to_modified X p (get (data s) "only_modified" VNone)
                 (get (data s) "test" (VList []));
   search X p tp pp (get (data s) "filter" (VList [])) names) sa.
Proof.
  intros Hacq Hfilter. pose proof (acquire_data X p _ _ _ Hacq) as Hdata.
  unfold go. rewrite (bind_ok _ _ _ _ _ Hacq). unfold discover.
  rewrite (bind_ok _ _ sa sa (get (data s) "filter" (VList [])))
    by (unfold self_get; by rewrite Hdata).
  rewrite (bind_ok _ _ sa sa tt)
    by (by destruct (get (data s) "filter" (VList []))).
  rewrite (bind_ok _ _ sa sa (get (data s) "test" (VList [])))
    by (unfold self_get; by rewrite Hdata).
  rewrite (bind_ok _ _ sa sa (get (data s) "only_modified" VNone))
    by (unfold self_get; by rewrite Hdata).
  by rewrite (bind_ok _ _ sa sa (get (data s) "reference_url" VNone))
    by (unfold self_get; by rewrite Hdata).
Qed.

Lemma limit_to_modified_log om names s rr :
  dry p = false →
  truthy om = true →
  get (data s) "reference_ref" VNone = VStr rr →
  limit_to_modified X p om names s =
  let '(w2, r) := exec X (world s) (git_log rr) (Some (testdir p)) in
  let s2 := after s w2 (EvRun (git_log rr) (Some (testdir p))) in
  match r with
  | inl e => (s2, inl e)
  | inr out => extend names (elements (modified out)) s2
  end.
Proof.
  intros Hdry Hom Hrr. unfold limit_to_modified. rewrite Hom.
  rewrite (bind_ok _ _ s s (VStr rr)) by (unfold self_get; by rewrite Hrr).
  rewrite (bind_ok _ _ s s rr) by done.
  unfold bind. rewrite run_executed by done.
  by destruct (exec X (world s) (git_log rr) (Some (testdir p))) as [w2 [e|out]].
Qed.


End Failures.

(** X10: in a run that is not dry, with a [reference_url] set, an error of
    [git remote add reference] ends [go] with that error: the remote is not
    fetched, no diff is made and the metadata tree is not queried. *)
Theorem X10_remote_add_failure_is_fatal :
  ∀ {W} (X : externals W) (p : plugin) (s sa : state W)
    (path tree_path prefix_path u : string) (w1 : W) (e : exn),
    dry p = false →
    acquire X p s = (sa, inr (path, tree_path, prefix_path)) →
    is_sequence (get (data s) "filter" (VList [])) = true →
    get (data s) "reference_url" VNone = VStr u →
    u ≠ "" →
    exec X (world sa) (remote_add u) (Some (testdir p)) = (w1, inl e) →
    go X p s = (after sa w1 (EvRun (remote_add u) (Some (testdir p))), inl e).
Proof.
  intros W X p s sa path tp pp u w1 e Hdry Hacq Hfilter Hurl Hu Hadd.
  rewrite (go_after_acquire X p s sa path tp pp) by done.
  apply bind_raise. by rewrite Hurl, fetch_reference_eq, Hadd.
Qed.

Lemma X10_remote_add_failure_is_fatal_witness :
  let git cmd := match cmd with
                 | Argv ("git" :: "remote" :: _) =>
                     inl (RunError "fatal: remote reference already exists.")
                 | _ => Fixture.git_repository "/home/user/repo" [] cmd
                 end in
  let X := Fixture.collaborators [Fixture.testdir +:+ "/"] git [] in
  let s := Fixture.start {[ "reference_url" := VStr "https://github.com/psss/tmt" ]} in
  snd (go X (Fixture.the_plugin false) s)
  = inl (RunError "fatal: remote reference already exists.").
Proof.
  intros git X s.
  exact (f_equal snd
           (X10_remote_add_failure_is_fatal X (Fixture.the_plugin false) s
              (after (after s tt (EvRun rev_parse (Some "/home/user/repo"))) tt
                     (EvCopyTree "/home/user/repo" Fixture.testdir))
              "" (Fixture.testdir +:+ "/") "/tests/" "https://github.com/psss/tmt"
              tt (RunError "fatal: remote reference already exists.")
              eq_refl eq_refl eq_refl eq_refl ltac:(discriminate) eq_refl)).
Defined.

(** X11: in a run that is not dry, with [only_modified] set, an error of
    [git log] ends [go] with that error, right after the command: the
    metadata tree is not queried and no test is selected on the explicit
    names alone. *)
Theorem X11_diff_failure_is_fatal :
  ∀ {W} (X : externals W) (p : plugin) (s sa s1 : state W)
    (path tree_path prefix_path rr : string) (w2 : W) (e : exn),
    dry p = false →
    acquire X p s = (sa, inr (path, tree_path, prefix_path)) →
    is_sequence (get (data s) "filter" (VList [])) = true →
    truthy (get (data s) "only_modified" VNone) = true →
    fetch_reference X p (get (data s) "reference_url" VNone) sa = (s1, inr tt) →
    get (data s) "reference_ref" VNone = VStr rr →
    exec X (world s1) (git_log rr) (Some (testdir p)) = (w2, inl e) →
    go X p s = (after s1 w2 (EvRun (git_log rr) (Some (testdir p))), inl e).
Proof.
  intros W X p s sa s1 path tp pp rr w2 e Hdry Hacq Hfilter Hom Hfetch Hrr Hlog.
  pose proof (acquire_data X p _ _ _ Hacq) as Hdata.
  pose proof (fetch_reference_data X p _ _ _ _ Hfetch) as Hdata1.
  rewrite (go_after_acquire X p s sa path tp pp) by done.
  rewrite (bind_ok _ _ _ _ _ Hfetch). apply bind_raise.
  rewrite (limit_to_modified_log X p _ _ s1 rr); try done.
  - by rewrite Hlog.
  - by rewrite Hdata1, Hdata.
Qed.

Lemma X11_diff_failure_is_fatal_witness :
  let git cmd := match cmd with
                 | Argv ("git" :: "log" :: _) =>
                     inl (RunError "fatal: bad revision 'master..HEAD'")
                 | _ => Fixture.git_repository "/home/user/repo" [] cmd
                 end in
  let X := Fixture.collaborators [Fixture.testdir +:+ "/"] git [] in
  let s := Fixture.start {[ "only_modified" := VBool true ]} in
  snd (go X (Fixture.the_plugin false) s)
  = inl (RunError "fatal: bad revision 'master..HEAD'").
Proof.
  intros git X s.
  pose (sa := after (after s tt (EvRun rev_parse (Some "/home/user/repo"))) tt
                    (EvCopyTree "/home/user/repo" Fixture.testdir)).
  exact (f_equal snd
           (X11_diff_failure_is_fatal X (Fixture.the_plugin false) s sa sa
              "" (Fixture.testdir +:+ "/") "/tests/" "master" tt
              (RunError "fatal: bad revision 'master..HEAD'")
              eq_refl eq_refl eq_refl eq_refl eq_refl eq_refl eq_refl)).
Defined.

(** X12: [names.extend] needs a list. In a run that is not dry, with
    [only_modified] set and the changed files listed, a value under
    ['test'] that is not a list (a tuple, a string) makes [go] raise
    [AttributeError] right after [git log]; the metadata tree is not
    queried. *)
Theorem X12_names_must_be_a_list :
  ∀ {W} (X : externals W) (p : plugin) (s sa s1 : state W)
    (path tree_path prefix_path rr : string) (w2 : W) (out : string),
    dry p = false →
    acquire X p s = (sa, inr (path, tree_path, prefix_path)) →
    is_sequence (get (data s) "filter" (VList [])) = true →
    is_list (get (data s) "test" (VList [])) = false →
    truthy (get (data s) "only_modified" VNone) = true →
    fetch_reference X p (get (data s) "reference_url" VNone) sa = (s1, inr tt) →
    get (data s) "reference_ref" VNone = VStr rr →
    exec X (world s1) (git_log rr) (Some (testdir p)) = (w2, inr out) →
    go X p s = (after s1 w2 (EvRun (git_log rr) (Some (testdir p))),
                inl AttributeError).
Proof.
  intros W X p s sa s1 path tp pp rr w2 out
         Hdry Hacq Hfilter Hlist Hom Hfetch Hrr Hlog.
  pose proof (acquire_data X p _ _ _ Hacq) as Hdata.
  pose proof (fetch_reference_data X p _ _ _ _ Hfetch) as Hdata1.
  rewrite (go_after_acquire X p s sa path tp pp) by done.
  rewrite (bind_ok _ _ _ _ _ Hfetch). apply bind_raise.
  rewrite (limit_to_modified_log X p _ _ s1 rr); try done.
  - rewrite Hlog. by destruct (get (data s) "test" (VList [])).
  - by rewrite Hdata1, Hdata.
Qed.

Lemma X12_names_must_be_a_list_witness :
  let X := Fixture.collaborators [Fixture.testdir +:+ "/"]
             (Fixture.git_repository "/home/user/repo" ["a/b/x"]) [] in
  let s := Fixture.start {[ "only_modified" := VBool true;
                            "test" := VTuple [VStr "/foo"] ]} in
  snd (go X (Fixture.the_plugin false) s) = inl AttributeError.
Proof.
  intros X s.
  pose (sa := after (after s tt (EvRun rev_parse (Some "/home/user/repo"))) tt
                    (EvCopyTree "/home/user/repo" Fixture.testdir)).
  exact (f_equal snd
           (X12_names_must_be_a_list X (Fixture.the_plugin false) s sa sa
              "" (Fixture.testdir +:+ "/") "/tests/" "master" tt
              ("a/b/x" +:+ Str.nl)
              eq_refl eq_refl eq_refl eq_refl eq_refl eq_refl eq_refl eq_refl)).
Defined.

(** ** [go] and the plugin's data *)



(** X14: with [only_modified] not set, [go] never changes the plugin's
    data, however the run ends. *)
Theorem X14_go_keeps_the_data :
  ∀ {W} (X : externals W) (p : plugin) (s : state W),
    truthy (get (data s) "only_modified" VNone) = false →
    data (fst (go X p s)) = data s.
Proof.
  intros W X p s Hom.
  set (P := λ s' : state W, data s' = data s).
  change (P (fst (go X p s))). unfold go.
  apply keeps_bind_at; [by apply (keeps_acquire X p (λ _, True))|].
  intros [[path tp] pp] s0 Hs0. unfold P in Hs0. unfold discover.
  rewrite (bind_ok _ _ s0 s0 (get (data s) "filter" (VList [])))
    by (unfold self_get; by rewrite Hs0).
  apply keeps_bind_at; [by destruct (get (data s) "filter" (VList []))|].
  intros _ s2 Hs2. unfold P in Hs2.
  rewrite (bind_ok _ _ s2 s2 (get (data s) "test" (VList [])))
    by (unfold self_get; by rewrite Hs2).
  rewrite (bind_ok _ _ s2 s2 (get (data s) "only_modified" VNone))
    by (unfold self_get; by rewrite Hs2).
  rewrite (bind_ok _ _ s2 s2 (get (data s) "reference_url" VNone))
    by (unfold self_get; by rewrite Hs2).
  apply keeps_bind_at;
    [by apply (keeps_fetch_reference X p (λ _, True))|].
  intros _ s3 Hs3. unfold limit_to_modified. rewrite Hom.
  rewrite (bind_ok _ _ s3 s3 (get (data s) "test" (VList []))) by done.
  by apply (keeps_search X p (λ _, True)).
Qed.

Lemma X14_go_keeps_the_data_witness :
  let X := Fixture.collaborators [Fixture.testdir +:+ "/"]
             (Fixture.git_repository "/home/user/repo" ["a/b/x"]) [] in
  let s := Fixture.start {[ "test" := VList [VStr "/foo"] ]} in
  data (fst (go X (Fixture.the_plugin false) s)) = data s.
Proof.
  intros X s.
  exact (X14_go_keeps_the_data X (Fixture.the_plugin false) s eq_refl).
Defined.

(** ** The library hook *)

Section Hook.
Context {W : Type} (X : externals W).

Lemma prefix_tests_handled prefix_path todo :
  ∀ done (s s' : state W),
    self_tests s = done ++ todo →
    prefix_tests X prefix_path done todo s = (s', inr tt) →
    ∃ todo', self_tests s' = done ++ todo'
             ∧ Forall2 (handled X prefix_path) todo todo'.
Proof.
  induction todo as [|t rest IH]; intros done s s' Hs Hrun.
  - cbv in Hrun. simplify_eq. exists []. by rewrite app_nil_r in *.
  - cbn [prefix_tests] in Hrun.
    apply bind_inv_ok in Hrun as (s1 & [] & H1 & Hrun). cbv [set_tests] in H1.
    apply bind_inv_ok in Hrun as (s2 & [] & H2 & Hrun). cbv [log] in H2.
    apply bind_inv_ok in Hrun as (s3 & t2 & H3 & Hrun).
    simplify_eq. cbn [self_tests trace world data] in *.
    assert (self_tests s3 = done ++ t2 :: rest ∧ handled X prefix_path t t2)
      as [Hts Hh].
    { unfold handle_requires, handled in *.
      cbn [set_path require recommend name path] in *.
      destruct (require t) as [|rq0 rq] eqn:Hrq, (recommend t) as [|rc0 rc] eqn:Hrc;
        [ cbv [ret] in H3; simplify_eq; cbn; by split_and! | ..];
        apply bind_inv_ok in H3 as (sx & [rq' rc'] & Hc & H3);
        cbv [call] in Hc; cbn [world data self_tests trace] in Hc;
        destruct (dependencies X (world s) _ _) as [w' [e|res]] eqn:Hdep;
        simplify_eq; cbv [bind set_tests ret] in H3; simplify_eq;
        cbn [self_tests set_requires name path require recommend];
        (split; [done|]); split_and!; try done; by exists (world s), w'. }
    apply IH in Hrun as (todo' & Hts' & Hall); [|by rewrite Hts, <- app_assoc].
    exists (t2 :: todo'). rewrite Hts', <- app_assoc. split; [done|].
    by constructor.
Qed.

Lemma prefix_tests_hook_error prefix_path done t rest (s : state W) w' e :
  (require t ≠ [] ∨ recommend t ≠ []) →
  dependencies X (world s) (require t) (recommend t) = (w', inl e) →
  prefix_tests X prefix_path done (t :: rest) s =
  ({| world := w'; data := data s;
      self_tests := done ++ set_path t (prefixed prefix_path (path t)) :: rest;
      trace := trace s ++ [EvSetPath (name t) (prefixed prefix_path (path t));
                           EvDependencies (name t) (require t) (recommend t)] |},
   inl e).
Proof.
  intros Hreq Hdep. cbn [prefix_tests]. unfold handle_requires.
  cbn [set_path require recommend name path].
  destruct (require t) as [|rq0 rq], (recommend t) as [|rc0 rc];
    [by destruct Hreq | ..];
    mstep; rewrite Hdep; by rewrite <- app_assoc.
Qed.

End Hook.

(** X15: when the loop over the selected tests ends well, the tests it
    leaves are the selected ones, in order, each with its name, its path
    prefixed, and for [require] and [recommend] what the library hook gave
    back for the test's own; a test with neither keeps both empty and is
    not handed to the hook. *)
Theorem X15_hook_overwrites_requires :
  ∀ {W} (X : externals W) (prefix_path : string) (selected : list Test)
    (s s' : state W),
    (do _ ← set_tests selected; prefix_tests X prefix_path [] selected) s
      = (s', inr tt) →
    Forall2 (handled X prefix_path) selected (tests s').
Proof.
  intros W X pp selected s s' Hrun.
  apply bind_inv_ok in Hrun as (s1 & [] & H1 & Hrun). cbv [set_tests] in H1.
  simplify_eq.
  apply prefix_tests_handled in Hrun as (todo' & Hts & Hall); [|done].
  unfold tests. by rewrite Hts.
Qed.

Lemma X15_hook_overwrites_requires_witness :
  let X := {| getcwd := λ _ : unit, "/";
              isdir := λ _ _, true;
              exec := λ w _ _, (w, inr "");
              copytree := λ w _ _, (w, inr tt);
              tree_nodes := λ _ _, inr [];
              name_matches := λ _ _, true;
              filter_matches := λ _ _, true;
              dependencies := λ w rq rc, (w, inr ("beakerlib" :: rq, rc)) |} in
  let t1 := {| name := "/a"; path := "/a"; require := ["library(x/y)"];
               recommend := [] |} in
  let t2 := {| name := "/b"; path := "/b"; require := []; recommend := [] |} in
  let s' := {| world := tt; data := ∅;
               self_tests := [ {| name := "/a"; path := "/tests/a";
                                  require := ["beakerlib"; "library(x/y)"];
                                  recommend := [] |};
                               set_path t2 "/tests/b" ];
               trace := [EvSetPath "/a" "/tests/a";
                         EvDependencies "/a" ["library(x/y)"] [];
                         EvSetPath "/b" "/tests/b"] |} in
  Forall2 (handled X "/tests/") [t1; t2] (tests s').
Proof.
  intros X t1 t2 s'.
  exact (X15_hook_overwrites_requires X "/tests/" [t1; t2] (Fixture.start ∅) s'
           eq_refl).
Defined.

(** X16: an error of the library hook ends the loop with that error and
    leaves the tests half done: the failing test has its path prefixed and
    its requires as they were, the tests after it are untouched. *)
Theorem X16_hook_error_leaves_tests_half_done :
  ∀ {W} (X : externals W) (prefix_path : string) (done rest : list Test)
    (t : Test) (s : state W) (w' : W) (e : exn),
    require t ≠ [] ∨ recommend t ≠ [] →
    dependencies X (world s) (require t) (recommend t) = (w', inl e) →
    prefix_tests X prefix_path done (t :: rest) s =
    ({| world := w'; data := data s;
        self_tests := done ++ set_path t (prefixed prefix_path (path t)) :: rest;
        trace := trace s ++ [EvSetPath (name t) (prefixed prefix_path (path t));
                             EvDependencies (name t) (require t) (recommend t)] |},
     inl e).
Proof.
  intros W X prefix_path done rest t s w' e. apply prefix_tests_hook_error.
Qed.

Lemma X16_hook_error_leaves_tests_half_done_witness :
  let X := {| getcwd := λ _ : unit, "/";
              isdir := λ _ _, true;
              exec := λ w _ _, (w, inr "");
              copytree := λ w _ _, (w, inr tt);
              tree_nodes := λ _ _, inr [];
              name_matches := λ _ _, true;
              filter_matches := λ _ _, true;
              dependencies := λ w _ _, (w, inl (OtherError "library not found")) |} in
  let t1 := {| name := "/a"; path := "/a"; require := ["library(x/y)"];
               recommend := [] |} in
  let t2 := {| name := "/b"; path := "/b"; require := []; recommend := [] |} in
  prefix_tests X "/tests/" [] [t1; t2] (Fixture.start ∅)
  = ({| world := tt; data := ∅;
        self_tests := [] ++ set_path t1 (prefixed "/tests/" (path t1)) :: [t2];
        trace := [] ++ [EvSetPath (name t1) (prefixed "/tests/" (path t1));
                        EvDependencies (name t1) (require t1) (recommend t1)] |},
     inl (OtherError "library not found")).
Proof.
  intros X t1 t2.
  apply (X16_hook_error_leaves_tests_half_done X "/tests/" [] [t2] t1
           (Fixture.start ∅) tt (OtherError "library not found")).
  - left. discriminate.
  - reflexivity.
Defined.

(** ** More on the modified set *)

Lemma split_nonempty c s : ∃ w ws, Str.split c s = w :: ws.
Proof.
  induction s as [|a r (w & ws & IH)]; [by eexists _, _|].
  cbn [Str.split]. case_bool_decide; [by eexists _, _|].
  rewrite IH. by eexists _, _.
Qed.

Lemma split_app c a b :
  Str.split c (a +:+ String c b) = Str.split c a ++ Str.split c b.
Proof.
  induction a as [|x a IH].
  - simpl. by rewrite bool_decide_eq_true_2.
  - change (String x a +:+ String c b) with (String x (a +:+ String c b)).
    cbn [Str.split]. rewrite IH. case_bool_decide; [done|].
    by destruct (split_nonempty c a) as (w & ws & ->).
Qed.

Lemma modified_dirs_app a b :
  modified_dirs (a +:+ Str.nl +:+ b) = modified_dirs a ++ modified_dirs b.
Proof.
  unfold modified_dirs.
  change (a +:+ Str.nl +:+ b) with (a +:+ String Str.newline b).
  by rewrite split_app, map_app, filter_app.
Qed.

(** X17: the modified set of two listings one after the other is the union
    of their modified sets, so the files of several commits add up and a
    directory changed in more than one of them counts once. *)
Theorem X17_modified_of_listings :
  ∀ a b, modified (a +:+ Str.nl +:+ b) = modified a ∪ modified b.
Proof.
  intros a b. unfold modified.
  by rewrite modified_dirs_app, fmap_app, list_to_set_app_L.
Qed.

Lemma has_char_app c a b : Str.has_char c (a +:+ String c b) = true.
Proof.
  induction a as [|x a IH]; simpl.
  - by rewrite bool_decide_eq_true_2.
  - by rewrite IH, orb_true_r.
Qed.

Lemma head_to_last_sep_app d f :
  Str.has_char Str.slash f = false →
  PosixPath.head_to_last_sep (d +:+ String Str.slash f) = d +:+ "/".
Proof.
  intros Hf. induction d as [|x d IH].
  - simpl. by rewrite head_to_last_sep_no_sep.
  - change (String x d +:+ String Str.slash f)
      with (String x (d +:+ String Str.slash f)).
    cbn [PosixPath.head_to_last_sep].
    change (Str.has_char Str.slash (String x (d +:+ String Str.slash f)))
      with (bool_decide (x = Str.slash)
            || Str.has_char Str.slash (d +:+ String Str.slash f)).
    by rewrite has_char_app, orb_true_r, IH.
Qed.

Lemma all_char_app_false d t :
  d ≠ "" → Str.endswith Str.slash d = false →
  Str.all_char Str.slash (d +:+ t) = false.
Proof.
  induction d as [|x d IH]; [done|]. intros _ Hend.
  change (String x d +:+ t) with (String x (d +:+ t)). cbn [Str.all_char].
  destruct d as [|y d].
  - cbn in Hend. by rewrite Hend.
  - rewrite IH; [by rewrite andb_false_r | done | done].
Qed.

Lemma rstrip_app_sep d :
  d ≠ "" → Str.endswith Str.slash d = false →
  Str.rstrip Str.slash (d +:+ "/") = d.
Proof.
  induction d as [|x d IH]; [done|]. intros _ Hend.
  change (String x d +:+ "/") with (String x (d +:+ "/")).
  cbn [Str.rstrip].
  change (Str.all_char Str.slash (String x (d +:+ "/")))
    with (Str.all_char Str.slash (String x d +:+ "/")).
  rewrite all_char_app_false by done.
  destruct d as [|y d]; [done|]. by rewrite IH.
Qed.

Lemma dirname_of_file d f :
  Str.has_char Str.slash f = false →
  d ≠ "" → Str.endswith Str.slash d = false →
  PosixPath.dirname (d +:+ "/" +:+ f) = d.
Proof.
  intros Hf Hd Hend. unfold PosixPath.dirname.
  change (d +:+ "/" +:+ f) with (d +:+ String Str.slash f).
  rewrite head_to_last_sep_app by done.
  rewrite all_char_app_false by done.
  assert (Str.nonempty (d +:+ "/") = true) as -> by (by destruct d).
  by apply rstrip_app_sep.
Qed.

(** X18: for a changed file [d/f], with [f] a file name and [d] a
    directory path that does not end in a separator, the directory taken
    is [d] whole, however deep, and the pattern [^/d$], with [d] escaped,
    is in the modified set of every listing that has the file on a line. *)
Theorem X18_pattern_of_a_changed_file :
  ∀ d f output,
    Str.has_char Str.slash f = false →
    d ≠ "" →
    Str.endswith Str.slash d = false →
    (d +:+ "/" +:+ f) ∈ Str.split Str.newline output →
    PosixPath.dirname (d +:+ "/" +:+ f) = d
    ∧ ("^/" +:+ Re.escape d +:+ "$") ∈ modified output.
Proof.
  intros d f output Hf Hd Hend Hline.
  pose proof (dirname_of_file d f Hf Hd Hend) as Hdir. split; [done|].
  apply elem_of_modified. exists (d +:+ "/" +:+ f). by rewrite Hdir.
Qed.

Lemma X18_pattern_of_a_changed_file_witness :
  "^/tests/core/smoke$"
    ∈ modified (listing ["README.rst"; "tests/core/smoke/main.fmf"]).
Proof.
  refine (proj2 (X18_pattern_of_a_changed_file "tests/core/smoke" "main.fmf"
                   (listing ["README.rst"; "tests/core/smoke/main.fmf"])
                   eq_refl ltac:(discriminate) eq_refl _)).
  apply (bool_decide_unpack _). vm_compute. exact I.
Defined.

Lemma escape_length s :
  (String.length s ≤ String.length (Re.escape s))%nat
  ∧ (String.length (Re.escape s) ≤ 2 * String.length s)%nat.
Proof.
  induction s as [|c r [IH1 IH2]]; [by cbn; lia|].
  cbn [Re.escape]. destruct (Re.special c); cbn [String.length]; lia.
Qed.

(** X19: [re.escape] leaves a name as it is exactly when the name has none
    of the special characters, and at most doubles its length: the pattern
    of a directory named with letters, digits, [_] and [/] only is the name
    itself between [^/] and [$]. *)
Theorem X19_escape_of_plain_names :
  ∀ s,
    (Re.escape s = s ↔ plain s = true)
    ∧ (pattern_of s = "^/" +:+ s +:+ "$" ↔ plain s = true)
    ∧ (String.length s ≤ String.length (Re.escape s))%nat
    ∧ (String.length (Re.escape s) ≤ 2 * String.length s)%nat.
Proof.
  intros s.
  enough (Re.escape s = s ↔ plain s = true) as Hplain.
  { split; [done|]. split; [|apply escape_length].
    rewrite <- Hplain. unfold pattern_of. split; [|by intros ->].
    intros H. injection H as H.
    change (Re.escape s +:+ "$" = s +:+ "$") in H. by apply append_inj_r in H. }
  induction s as [|c r IH]; [done|].
  cbn [Re.escape plain]. destruct (Re.special c) eqn:Hc; cbn [negb andb].
  - split; [|done]. intros [= Hb Hr]. exfalso.
    apply (f_equal String.length) in Hr. cbn [String.length] in Hr.
    pose proof (escape_length r). lia.
  - rewrite <- IH. split; [by intros [= ->] | by intros ->].
Qed.

(** ** A metadata root below the repository's root *)

Lemma commonprefix_app l r : PosixPath.commonprefix l (l ++ r) = l.
Proof.
  induction l as [|a l IH]; [by destruct r|]. cbn.
  rewrite bool_decide_eq_true_2 by done. by rewrite IH.
Qed.

Lemma relpath_below cwd path start x xs :
  path ≠ "" →
  components (PosixPath.abspath cwd path)
    = components (PosixPath.abspath cwd start) ++ x :: xs →
  PosixPath.relpath cwd path start = Some (PosixPath.join_all x xs).
Proof.
  intros Hne Hc. unfold PosixPath.relpath.
  apply nonempty_true in Hne. rewrite Hne. cbn [negb].
  fold (components (PosixPath.abspath cwd start)).
  fold (components (PosixPath.abspath cwd path)). rewrite Hc.
  rewrite commonprefix_app, Nat.sub_diag, drop_app_length. done.
Qed.

(** X20: with no [url], when the metadata root lies below the root of its
    repository, it is the repository's root that is copied into the test
    directory (nothing in dry mode), and the path the run goes on with is
    what leads from that root to the metadata root: the components of the
    metadata root after those of the repository's root, joined. *)
Theorem X20_nested_metadata_root :
  ∀ {W} (X : externals W) (p : plugin) (s : state W) (fmf_root : string)
    (w1 : W) (out x : string) (xs : list string),
    truthy (get (data s) "url" VNone) = false →
    fmf_root_of p (get (data s) "path" VNone) = VStr fmf_root →
    fmf_root ≠ "" →
    (truthy (get (data s) "path" VNone) = true
     → isdir X (world s) fmf_root = true) →
    exec X (world s) rev_parse (Some fmf_root) = (w1, inr out) →
    components (PosixPath.abspath (getcwd X w1) fmf_root)
      = components (PosixPath.abspath (getcwd X w1) (Str.strip Str.newline out))
        ++ x :: xs →
    let s1 := after s w1 (EvRun rev_parse (Some fmf_root)) in
    let git_root := Str.strip Str.newline out in
    fetch_source X p s =
      (if dry p then (s1, inr (VStr (PosixPath.join_all x xs)))
       else let '(w2, c) := copytree X w1 git_root (testdir p) in
            (after s1 w2 (EvCopyTree git_root (testdir p)),
             match c with
             | inl e => inl e
             | inr _ => inr (VStr (PosixPath.join_all x xs))
             end)).
Proof.
  intros W X p s fmf_root w1 out x xs Hurl Hroot Hne Hdir Hexec Hc s1 git_root.
  rewrite fetch_source_local by done.
  apply (copy_local_eq X p _ s fmf_root w1 (inr out) git_root
           (PosixPath.join_all x xs)); try done.
  by apply relpath_below.
Qed.

Lemma X20_nested_metadata_root_witness :
  let X := Fixture.collaborators
             ["/home/user/repo/tests/tree"; Fixture.testdir +:+ "/tests/tree"]
             (Fixture.git_repository "/home/user/repo" []) [] in
  let p := Fixture.the_plugin false in
  let s := Fixture.start {[ "path" := VStr "/home/user/repo/tests/tree" ]} in
  fetch_source X p s
  = (after (after s tt (EvRun rev_parse (Some "/home/user/repo/tests/tree"))) tt
           (EvCopyTree "/home/user/repo" Fixture.testdir),
     inr (VStr "tests/tree")).
Proof.
  intros X p s.
  apply (X20_nested_metadata_root X p s "/home/user/repo/tests/tree" tt
           ("/home/user/repo" +:+ Str.nl) "tests" ["tree"]);
    [reflexivity | reflexivity | discriminate | reflexivity | reflexivity
    | vm_compute; reflexivity].
Defined.

Example acquire_nested :
  let X := Fixture.collaborators
             ["/home/user/repo/tests/tree"; Fixture.testdir +:+ "/tests/tree"]
             (Fixture.git_repository "/home/user/repo" []) [] in
  snd (acquire X (Fixture.the_plugin false)
         (Fixture.start {[ "path" := VStr "/home/user/repo/tests/tree" ]}))
  = inr ("tests/tree", Fixture.testdir +:+ "/tests/tree", "/tests/tests/tree").
Proof. by vm_compute. Qed.
